(** * baklava/src/electron.ts: the desktop shell of the voice-chat client

    A shallow embedding of the main-process script.  The script is event
    wiring around host objects (windows, the application singleton, the
    inter-process channel, timers), so the embedding is an event-driven
    state machine:

    - [World] holds the module-level variables of the script together with
      the part of the host state that the script reads back (window flags,
      the listener table, the timer table, the clock) and a time-stamped log
      of every host call the script makes;
    - every closure of the script is a function [World -> World];
    - [step] delivers one host event to the listeners registered for it.

    What the script imports from files outside [electron.ts] ([ALLOWED_HOSTS],
    [isLinux], [isMac], [isWin], the URL class of the host, the packaging flag
    and the environment) is a variable of the section. *)

From stdpp Require Import base list strings.
From Stdlib Require Import NArith ZArith Lia.

Open Scope string_scope.
Open Scope list_scope.

(** ** Host data *)

(** A variable of the script that holds an object reference. *)
Inductive Slot (A : Type) : Type :=
| undefined : Slot A
| null : Slot A
| object (a : A) : Slot A.
Arguments undefined {A}.
Arguments null {A}.
Arguments object {A} a.

(** [s === null]. *)
Definition is_null {A} (s : Slot A) : bool :=
  match s with null => true | _ => false end.

(** JavaScript truthiness of an environment variable: [undefined] when the
    variable is not set, otherwise its string value, which is falsy only
    when empty. *)
Definition truthy_env (v : option string) : bool :=
  match v with
  | None => false
  | Some s => negb (bool_decide (s = ""))
  end.

(** The fields of a parsed URL that the script reads. *)
Record URL : Type := mkURL {
  hostname : string;
  pathname : string
}.

(** The option object handed to [new BrowserWindow]; a field that the
    script leaves out is [None]. *)
Record BrowserWindowOptions : Type := mkOptions {
  width : Z;
  height : Z;
  minWidth : option Z;
  minHeight : option Z;
  autoHideMenuBar : option bool;
  transparent : option bool;
  frame : option bool;
  resizable : option bool;
  show : option bool;
  nodeIntegration : bool;
  contextIsolation : bool
}.

(** A live window: the options it was created with and the flags of the
    host that the script queries.  Whether the host has already destroyed
    the window is not part of the model: the calls [destroy] and [close]
    are logged and nothing more. *)
Record BrowserWindow : Type := mkWindow {
  options : BrowserWindowOptions;
  minimized : bool;
  maximized : bool;
  fullScreen : bool;
  fullScreenable : bool;
  maximizable : bool;
  minimizable : bool
}.

(** The window the host hands back from the constructor: nothing is
    minimized, maximized or full screen, and every capability left out of
    the options has the default of the host, which is [true]. *)
Definition fresh_window (o : BrowserWindowOptions) : BrowserWindow :=
  {| options := o;
     minimized := false; maximized := false; fullScreen := false;
     fullScreenable := true; maximizable := true; minimizable := true |}.

Definition set_minimized (b : bool) (bw : BrowserWindow) : BrowserWindow :=
  {| options := options bw;
     minimized := b; maximized := maximized bw; fullScreen := fullScreen bw;
     fullScreenable := fullScreenable bw; maximizable := maximizable bw;
     minimizable := minimizable bw |}.

Definition set_maximized (b : bool) (bw : BrowserWindow) : BrowserWindow :=
  {| options := options bw;
     minimized := minimized bw; maximized := b; fullScreen := fullScreen bw;
     fullScreenable := fullScreenable bw; maximizable := maximizable bw;
     minimizable := minimizable bw |}.

Definition set_fullScreen (b : bool) (bw : BrowserWindow) : BrowserWindow :=
  {| options := options bw;
     minimized := minimized bw; maximized := maximized bw; fullScreen := b;
     fullScreenable := fullScreenable bw; maximizable := maximizable bw;
     minimizable := minimizable bw |}.

(** The two windows of the script. *)
Inductive Win : Type := Main | Splash.

(** How the promise of a host call settles. *)
Inductive Settled (A : Type) : Type :=
| resolved (a : A) : Settled A
| rejected : Settled A.
Arguments resolved {A} a.
Arguments rejected {A}.

(** ** Host calls

    One constructor per call the script makes on a host object or on an
    imported collaborator; the log of a run is a list of these. *)
Inductive Call : Type :=
| app_requestSingleInstanceLock
| i18n_use_Backend
| electronLogger_level (level : string)
| app_setAppUserModelId (id : string)
| app_relaunch
| exitApp
| i18n_init
| new_BrowserWindow (w : Win) (o : BrowserWindowOptions)
| Menu_setApplicationMenu
| new_Tray (icon : string)
| openDevTools
| loadURL (url : string)
| loadFile (file : string)
| webContents_send (w : Win) (channel : string)
| startRPC
| RegisterKeybinds
| HandleVoiceTray
| StartNotificationHandler
| globalShortcut_unregisterAll
| overlay_destroy
| win_destroy (w : Win)
| win_show (w : Win)
| win_close (w : Win)
| win_restore (w : Win)
| win_focus (w : Win)
| win_maximize (w : Win)
| win_unmaximize (w : Win)
| win_minimize (w : Win)
| win_setFullScreen (w : Win) (flag : bool)
| event_preventDefault
| shell_openExternal (url : string)
| askForMediaAccess (mediaType : string)
| event_returnValue (value : bool)
| sender_send_hostPlatform (linux mac win : bool)
| setInterval (id : nat) (ms : N)
| clearInterval (id : nat)
| clearTimeout (id : nat)
| setTimeout (id : nat) (ms : N)
| throw_TypeError.

(** What the host emitted, kept in the log next to the calls. *)
Inductive Entry : Type :=
| called (c : Call)
| emitted (name : string).

(** The closures the script registers as listeners, named after the event
    they are registered for. *)
Inductive Listener : Type :=
| on_ready
| on_second_instance
| on_window_all_closed
| on_activate
| once_ready_to_show
| on_request_mic
| on_closed
| on_new_window
| on_will_navigate
| on_dogehouse_loaded
| on_app_quit
| on_app_maximize
| on_app_minimize
| on_app_hostPlatform
| on_did_finish_load.

Global Instance Listener_eq_dec : EqDecision Listener.
Proof. solve_decision. Defined.

(** The two callbacks the script hands to the timer functions. *)
Inductive TimerBody : Type :=
| poll_shouldShowWindow
| show_main_window.

Record Timer : Type := mkTimer {
  tid : nat;
  due : N;
  period : option N;
  body : TimerBody
}.

(** ** The world *)

Record World : Type := mkWorld {
  (* module-level variables of electron.ts *)
  mainWindow : Slot BrowserWindow;
  splash : Slot BrowserWindow;
  overlay : bool;
  shouldShowWindow : bool;
  windowShowInterval : option nat;
  skipUpdateTimeout : option nat;
  (* host state *)
  listeners : list Listener;
  timers : list Timer;
  next_timer : nat;
  now : N;
  ready_emitted : bool;
  log : list (N * Entry)
}.

Definition set_mainWindow (s : Slot BrowserWindow) (w : World) : World :=
  {| mainWindow := s; splash := splash w; overlay := overlay w;
     shouldShowWindow := shouldShowWindow w;
     windowShowInterval := windowShowInterval w;
     skipUpdateTimeout := skipUpdateTimeout w;
     listeners := listeners w; timers := timers w;
     next_timer := next_timer w; now := now w;
     ready_emitted := ready_emitted w; log := log w |}.

Definition set_splash (s : Slot BrowserWindow) (w : World) : World :=
  {| mainWindow := mainWindow w; splash := s; overlay := overlay w;
     shouldShowWindow := shouldShowWindow w;
     windowShowInterval := windowShowInterval w;
     skipUpdateTimeout := skipUpdateTimeout w;
     listeners := listeners w; timers := timers w;
     next_timer := next_timer w; now := now w;
     ready_emitted := ready_emitted w; log := log w |}.

Definition set_overlay (b : bool) (w : World) : World :=
  {| mainWindow := mainWindow w; splash := splash w; overlay := b;
     shouldShowWindow := shouldShowWindow w;
     windowShowInterval := windowShowInterval w;
     skipUpdateTimeout := skipUpdateTimeout w;
     listeners := listeners w; timers := timers w;
     next_timer := next_timer w; now := now w;
     ready_emitted := ready_emitted w; log := log w |}.

Definition set_shouldShowWindow (b : bool) (w : World) : World :=
  {| mainWindow := mainWindow w; splash := splash w; overlay := overlay w;
     shouldShowWindow := b;
     windowShowInterval := windowShowInterval w;
     skipUpdateTimeout := skipUpdateTimeout w;
     listeners := listeners w; timers := timers w;
     next_timer := next_timer w; now := now w;
     ready_emitted := ready_emitted w; log := log w |}.

Definition set_windowShowInterval (i : option nat) (w : World) : World :=
  {| mainWindow := mainWindow w; splash := splash w; overlay := overlay w;
     shouldShowWindow := shouldShowWindow w;
     windowShowInterval := i;
     skipUpdateTimeout := skipUpdateTimeout w;
     listeners := listeners w; timers := timers w;
     next_timer := next_timer w; now := now w;
     ready_emitted := ready_emitted w; log := log w |}.

Definition set_listeners (l : list Listener) (w : World) : World :=
  {| mainWindow := mainWindow w; splash := splash w; overlay := overlay w;
     shouldShowWindow := shouldShowWindow w;
     windowShowInterval := windowShowInterval w;
     skipUpdateTimeout := skipUpdateTimeout w;
     listeners := l; timers := timers w;
     next_timer := next_timer w; now := now w;
     ready_emitted := ready_emitted w; log := log w |}.

Definition set_timers (l : list Timer) (n : nat) (w : World) : World :=
  {| mainWindow := mainWindow w; splash := splash w; overlay := overlay w;
     shouldShowWindow := shouldShowWindow w;
     windowShowInterval := windowShowInterval w;
     skipUpdateTimeout := skipUpdateTimeout w;
     listeners := listeners w; timers := l;
     next_timer := n; now := now w;
     ready_emitted := ready_emitted w; log := log w |}.

Definition set_now (t : N) (w : World) : World :=
  {| mainWindow := mainWindow w; splash := splash w; overlay := overlay w;
     shouldShowWindow := shouldShowWindow w;
     windowShowInterval := windowShowInterval w;
     skipUpdateTimeout := skipUpdateTimeout w;
     listeners := listeners w; timers := timers w;
     next_timer := next_timer w; now := t;
     ready_emitted := ready_emitted w; log := log w |}.

Definition set_ready_emitted (b : bool) (w : World) : World :=
  {| mainWindow := mainWindow w; splash := splash w; overlay := overlay w;
     shouldShowWindow := shouldShowWindow w;
     windowShowInterval := windowShowInterval w;
     skipUpdateTimeout := skipUpdateTimeout w;
     listeners := listeners w; timers := timers w;
     next_timer := next_timer w; now := now w;
     ready_emitted := b; log := log w |}.

Definition set_log (l : list (N * Entry)) (w : World) : World :=
  {| mainWindow := mainWindow w; splash := splash w; overlay := overlay w;
     shouldShowWindow := shouldShowWindow w;
     windowShowInterval := windowShowInterval w;
     skipUpdateTimeout := skipUpdateTimeout w;
     listeners := listeners w; timers := timers w;
     next_timer := next_timer w; now := now w;
     ready_emitted := ready_emitted w; log := l |}.

(** The state in which the process starts: no variable assigned, nothing
    registered, the clock at zero. *)
Definition empty_world : World :=
  {| mainWindow := undefined; splash := undefined; overlay := false;
     shouldShowWindow := false;
     windowShowInterval := None; skipUpdateTimeout := None;
     listeners := []; timers := []; next_timer := 0; now := 0%N;
     ready_emitted := false; log := [] |}.

(** ** Commands: explicit state passing *)

Definition Cmd : Type := World -> World.

Definition skip : Cmd := fun w => w.

Definition then_ (c d : Cmd) : Cmd := fun w => d (c w).

Notation "c >>> d" := (then_ c d) (at level 62, right associativity).

Definition when (b : bool) (c : Cmd) : Cmd := if b then c else skip.

(** Append one entry to the log, stamped with the clock. *)
Definition record (e : Entry) : Cmd :=
  fun w => set_log (log w ++ [(now w, e)]) w.

Definition call (c : Call) : Cmd := record (called c).

(** An access through [mainWindow] (or [splash]): on a variable that holds
    no object the property access throws and the rest of the closure does
    not run. *)
Definition with_main (k : BrowserWindow -> Cmd) : Cmd :=
  fun w =>
    match mainWindow w with
    | object bw => k bw w
    | _ => call throw_TypeError w
    end.

Definition with_splash (k : BrowserWindow -> Cmd) : Cmd :=
  fun w =>
    match splash w with
    | object bw => k bw w
    | _ => call throw_TypeError w
    end.

(** The host side of a window method that changes a flag the script can
    read back. *)
Definition main_becomes (f : BrowserWindow -> BrowserWindow) : Cmd :=
  fun w =>
    match mainWindow w with
    | object bw => set_mainWindow (object (f bw)) w
    | _ => w
    end.

(** [emitter.on(name, listener)] and the removal that [emitter.once]
    performs before it runs the listener. *)
Definition register (l : Listener) : Cmd :=
  fun w => set_listeners (listeners w ++ [l]) w.

Definition unregister (l : Listener) : Cmd :=
  fun w => set_listeners (filter (fun x => x ≠ l) (listeners w)) w.

(** [setInterval] and [setTimeout]: the host files a timer under a fresh
    id, due [ms] from now, and hands the id back. *)
Definition schedule (c : nat -> N -> Call) (repeating : bool) (ms : N)
    (b : TimerBody) (k : nat -> Cmd) : Cmd :=
  fun w =>
    let id := next_timer w in
    let t := {| tid := id; due := (now w + ms)%N;
                period := if repeating then Some ms else None;
                body := b |} in
    k id (set_timers (timers w ++ [t]) (S id) (call (c id ms) w)).

Definition drop_timer (id : nat) : Cmd :=
  fun w =>
    set_timers (filter (fun t => tid t ≠ id) (timers w)) (next_timer w) w.

(** [clearInterval(x)] and [clearTimeout(x)]; on [undefined] the host does
    nothing. *)
Definition clear (c : nat -> Call) (x : option nat) : Cmd :=
  match x with
  | Some id => call (c id) >>> drop_timer id
  | None => skip
  end.

(** ** Events of the host *)

Inductive Event : Type :=
| app_ready (i18n : Settled unit)
| app_second_instance
| app_window_all_closed
| app_activate (i18n : Settled unit)
| main_ready_to_show
| main_closed
| web_new_window (url : string)
| web_will_navigate (url : string)
| ipc_request_mic (answer : Settled bool)
| ipc_dogehouse_loaded
| ipc_app_quit
| ipc_app_maximize
| ipc_app_minimize
| ipc_app_hostPlatform
| splash_did_finish_load
| os_main_window (mini maxi full : bool)
| timer_fires (id : nat)
| clock_advance (ms : N).

Definition event_name (ev : Event) : string :=
  match ev with
  | app_ready _ => "ready"
  | app_second_instance => "second-instance"
  | app_window_all_closed => "window-all-closed"
  | app_activate _ => "activate"
  | main_ready_to_show => "ready-to-show"
  | main_closed => "closed"
  | web_new_window _ => "new-window"
  | web_will_navigate _ => "will-navigate"
  | ipc_request_mic _ => "request-mic"
  | ipc_dogehouse_loaded => "@dogehouse/loaded"
  | ipc_app_quit => "@app/quit"
  | ipc_app_maximize => "@app/maximize"
  | ipc_app_minimize => "@app/minimize"
  | ipc_app_hostPlatform => "@app/hostPlatform"
  | splash_did_finish_load => "did-finish-load"
  | os_main_window _ _ _ => "os"
  | timer_fires _ => "timer"
  | clock_advance _ => "clock"
  end.

(** ** Observing a run *)

(** The calls of a log, in order and without their time stamps. *)
Definition calls (l : list (N * Entry)) : list Call :=
  omap (fun e => match e.2 with called c => Some c | emitted _ => None end) l.

(** What a command appends to the log. *)
Definition appended (c : Cmd) (w : World) : list (N * Entry) :=
  drop (length (log w)) (log (c w)).

(** The calls a command makes when it runs in [w]. *)
Definition calls_of (c : Cmd) (w : World) : list Call := calls (appended c w).

(** The channels of the messages sent to the splash window. *)
Definition splash_sends (l : list Call) : list string :=
  omap (fun c => match c with
                 | webContents_send Splash ch => Some ch
                 | _ => None
                 end) l.

(** The options of the windows created. *)
Definition windows_created (k : Win) (l : list Call) : list BrowserWindowOptions :=
  omap (fun c => match c, k with
                 | new_BrowserWindow Main o, Main => Some o
                 | new_BrowserWindow Splash o, Splash => Some o
                 | _, _ => None
                 end) l.

(** The path lists that the handler of links compares against, by index of
    the host in the allow-list. *)
Definition in_app_paths (i : nat) : list string :=
  match i with
  | 3 => [ "/login"; "/session"; "/sessions/two-factor";
           "/sessions/two-factor/webauthn" ]
  | 8 => [ "/account/login_verification" ]
  | _ => []
  end.

(** ** Fixtures for running the script on concrete inputs

    A sample allow-list with the code-hosting site at index 3 and the
    micro-blogging site at index 8, and the parse of a few URLs as the URL
    class of the host reports them (every other string is treated as one
    the constructor rejects). *)
Definition sample_hosts : list string :=
  [ "dogehouse.tv"; "next.dogehouse.tv"; "api.dogehouse.tv"; "github.com";
    "localhost"; "doge-staging.stripcode.dev"; "stripcode.dev";
    "api.twitter.com"; "twitter.com" ].

Definition sample_URL (url : string) : option URL :=
  if bool_decide (url = "https://example.org/about") then
    Some {| hostname := "example.org"; pathname := "/about" |}
  else if bool_decide (url = "https://dogehouse.tv/dash") then
    Some {| hostname := "dogehouse.tv"; pathname := "/dash" |}
  else if bool_decide (url = "https://github.com/login") then
    Some {| hostname := "github.com"; pathname := "/login" |}
  else if bool_decide (url = "https://github.com/benawad/dogehouse") then
    Some {| hostname := "github.com"; pathname := "/benawad/dogehouse" |}
  else if bool_decide (url = "https://twitter.com/account/login_verification") then
    Some {| hostname := "twitter.com";
            pathname := "/account/login_verification" |}
  else if bool_decide (url = "https://twitter.com/home") then
    Some {| hostname := "twitter.com"; pathname := "/home" |}
  else None.

(** ** The script *)

Section Script.

(** Imported from [./constants]. *)
Variable ALLOWED_HOSTS : list string.
Variables isLinux isMac isWin : bool.

(** [app.isPackaged], [process.env.hotReload] and the answer of
    [app.requestSingleInstanceLock()]. *)
Variable __prod__ : bool.
Variable hotReload : option string.
Variable instanceLock : bool.

(** [new URL(url)]: [None] when the constructor throws. *)
Variable new_URL : string -> option URL.

Definition mainUrlBase : string := "https://dogehouse.tv/".
Definition localUrlBase : string := "http://localhost:3000".

(** [ALLOWED_HOSTS.includes(h)]. *)
Definition includes (l : list string) (h : string) : bool :=
  bool_decide (h ∈ l).

(** [h == l[i]]: an index past the end reads [undefined], which equals no
    string. *)
Definition eq_at (h : string) (l : list string) (i : nat) : bool :=
  bool_decide (l !! i = Some h).

(** [a !== b] on strings. *)
Definition strict_ne (a b : string) : bool := negb (bool_decide (a = b)).

(** The listener bound to both ['new-window'] and ['will-navigate']. *)
Definition handleLinks (url : string) : Cmd :=
  match new_URL url with
  | None => call throw_TypeError
  | Some urlObj =>
      let urlHost := hostname urlObj in
      if negb (includes ALLOWED_HOSTS urlHost) then
        call event_preventDefault >>> call (shell_openExternal url)
      else if
        (eq_at urlHost ALLOWED_HOSTS 3
         && strict_ne (pathname urlObj) "/login"
         && strict_ne (pathname urlObj) "/session"
         && strict_ne (pathname urlObj) "/sessions/two-factor"
         && strict_ne (pathname urlObj) "/sessions/two-factor/webauthn")
        || (eq_at urlHost ALLOWED_HOSTS 8
            && strict_ne (pathname urlObj) "/account/login_verification")
      then
        call event_preventDefault >>> call (shell_openExternal url)
      else skip
  end.

(** The listener of ['request-mic']: the reply is assigned after the
    promise of the host has resolved. *)
Definition request_mic (answer : Settled bool) : Cmd :=
  call (askForMediaAccess "microphone") >>>
  match answer with
  | resolved isAllowed => call (event_returnValue isAllowed)
  | rejected => skip
  end.

(** The listener of ['@app/maximize']. *)
Definition app_maximize : Cmd :=
  with_main (fun bw =>
    if isMac then
      when (fullScreenable bw)
        (call (win_setFullScreen Main (negb (fullScreen bw))) >>>
         main_becomes (set_fullScreen (negb (fullScreen bw))))
    else
      when (maximizable bw)
        (if maximized bw then
           call (win_unmaximize Main) >>> main_becomes (set_maximized false)
         else
           call (win_maximize Main) >>> main_becomes (set_maximized true))).

(** The listener of ['@app/minimize']. *)
Definition app_minimize : Cmd :=
  with_main (fun bw =>
    when (minimizable bw)
      (call (win_minimize Main) >>> main_becomes (set_minimized true))).

(** The listener of ['closed'] on the main window. *)
Definition closed : Cmd :=
  call globalShortcut_unregisterAll >>>
  (fun w => when (overlay w) (call overlay_destroy) w) >>>
  with_main (fun _ => call (win_destroy Main)).

Definition main_options : BrowserWindowOptions :=
  {| width := 1500; height := 800;
     minWidth := Some 400%Z; minHeight := Some 600%Z;
     autoHideMenuBar := Some true;
     transparent := None;
     frame := Some isLinux;
     resizable := None;
     show := Some false;
     nodeIntegration := true; contextIsolation := false |}.

Definition createMainWindow : Cmd :=
  call (new_BrowserWindow Main main_options) >>>
  set_mainWindow (object (fresh_window main_options)) >>>
  call Menu_setApplicationMenu >>>
  call (new_Tray "../icons/tray.png") >>>
  when (negb __prod__) (call openDevTools) >>>
  call (loadURL (if __prod__ then mainUrlBase else localUrlBase)) >>>
  set_overlay false >>>
  register once_ready_to_show >>>
  register on_request_mic >>>
  when isMac (call (webContents_send Main "@alerts/permissions")) >>>
  call startRPC >>>
  call RegisterKeybinds >>>
  call HandleVoiceTray >>>
  call StartNotificationHandler >>>
  register on_closed >>>
  register on_new_window >>>
  register on_will_navigate >>>
  register on_dogehouse_loaded >>>
  register on_app_quit >>>
  register on_app_maximize >>>
  register on_app_minimize >>>
  register on_app_hostPlatform.

Definition splash_options : BrowserWindowOptions :=
  {| width := 290; height := 400;
     minWidth := None; minHeight := None;
     autoHideMenuBar := None;
     transparent := Some true;
     frame := Some false;
     resizable := Some true;
     show := None;
     nodeIntegration := true; contextIsolation := false |}.

Definition createSplashWindow : Cmd :=
  call (new_BrowserWindow Splash splash_options) >>>
  set_splash (object (fresh_window splash_options)) >>>
  call (loadFile "../resources/splash/splash-screen.html") >>>
  register on_did_finish_load.

(** The callback of the [setTimeout] in [skipUpdateCheck]. *)
Definition show_main : Cmd :=
  with_splash (fun _ =>
    call (win_destroy Splash) >>>
    with_main (fun _ => call (win_show Main))).

(** The callback of the [setInterval] in [skipUpdateCheck]. *)
Definition poll : Cmd :=
  fun w =>
    if shouldShowWindow w then
      with_splash (fun _ =>
        call (webContents_send Splash "launch") >>>
        (fun w' => clear clearInterval (windowShowInterval w') w') >>>
        schedule setTimeout false 800 show_main_window (fun _ => skip)) w
    else w.

(** [skipUpdateCheck(splash)].  Its only caller passes the module variable
    [splash], which nothing reassigns afterwards, so the parameter and the
    closures that capture it are read from that variable.
    [skipUpdateTimeout] is declared by the script and never assigned. *)
Definition skipUpdateCheck : Cmd :=
  createMainWindow >>>
  with_splash (fun _ =>
    call (webContents_send Splash "notfound") >>>
    when (isLinux || negb __prod__)
      (call (webContents_send Splash "skipCheck")) >>>
    (fun w => clear clearTimeout (skipUpdateTimeout w) w) >>>
    schedule setInterval true 1000 poll_shouldShowWindow
      (fun id => set_windowShowInterval (Some id))).

(** [localize().then(k)]: [k] runs once [i18n.init] has resolved. *)
Definition localize_then (i18n : Settled unit) (k : Cmd) : Cmd :=
  call i18n_init >>>
  match i18n with
  | resolved _ => k
  | rejected => skip
  end.

(** The listener of ['ready']. *)
Definition ready (i18n : Settled unit) : Cmd :=
  localize_then i18n (createSplashWindow >>> skipUpdateCheck).

(** The listener of ['second-instance']. *)
Definition second_instance : Cmd :=
  fun w =>
    match mainWindow w with
    | object bw =>
        if truthy_env hotReload then call (win_close Main) w
        else
          (when (minimized bw)
             (call (win_restore Main) >>> main_becomes (set_minimized false))
           >>> call (win_focus Main)) w
    | _ => w
    end.

(** The listener of ['activate']. *)
Definition activate (i18n : Settled unit) : Cmd :=
  fun w =>
    if is_null (mainWindow w) then localize_then i18n createMainWindow w
    else w.

(** The body of the module, run once when the process starts. *)
Definition main : Cmd :=
  call app_requestSingleInstanceLock >>>
  call i18n_use_Backend >>>
  call (electronLogger_level "debug") >>>
  when isWin (call (app_setAppUserModelId "DogeHouse Reloaded")) >>>
  (if negb instanceLock then
     when (truthy_env hotReload) (call app_relaunch) >>>
     call exitApp
   else
     register on_ready >>>
     register on_second_instance) >>>
  register on_window_all_closed >>>
  register on_activate.

Definition boot : World := main empty_world.

(** ** Delivering events *)

(** The closure behind a listener, when the listener is bound to the
    event. *)
Definition listener_body (l : Listener) (ev : Event) : option Cmd :=
  match l, ev with
  | on_ready, app_ready i18n => Some (ready i18n)
  | on_second_instance, app_second_instance => Some second_instance
  | on_window_all_closed, app_window_all_closed => Some (call exitApp)
  | on_activate, app_activate i18n => Some (activate i18n)
  | once_ready_to_show, main_ready_to_show =>
      Some (unregister once_ready_to_show >>> set_shouldShowWindow true)
  | on_request_mic, ipc_request_mic answer => Some (request_mic answer)
  | on_closed, main_closed => Some closed
  | on_new_window, web_new_window url => Some (handleLinks url)
  | on_will_navigate, web_will_navigate url => Some (handleLinks url)
  | on_dogehouse_loaded, ipc_dogehouse_loaded =>
      Some (when isMac
              (with_main (fun _ =>
                 call (win_maximize Main) >>>
                 main_becomes (set_maximized true))))
  | on_app_quit, ipc_app_quit =>
      Some (with_main (fun _ => call (win_close Main)))
  | on_app_maximize, ipc_app_maximize => Some app_maximize
  | on_app_minimize, ipc_app_minimize => Some app_minimize
  | on_app_hostPlatform, ipc_app_hostPlatform =>
      Some (call (sender_send_hostPlatform isLinux isMac isWin))
  | on_did_finish_load, splash_did_finish_load =>
      Some (with_splash (fun _ =>
              call (webContents_send Splash "@locale/text")))
  | _, _ => None
  end.

(** The emitter runs the listeners that were registered when the event
    was emitted, in the order of their registration. *)
Fixpoint run_listeners (ls : list Listener) (ev : Event) : Cmd :=
  match ls with
  | [] => skip
  | l :: ls' =>
      match listener_body l ev with
      | Some c => c >>> run_listeners ls' ev
      | None => run_listeners ls' ev
      end
  end.

Definition emit (ev : Event) : Cmd :=
  record (emitted (event_name ev)) >>>
  (fun w => run_listeners (listeners w) ev w).

Definition timer_body (b : TimerBody) : Cmd :=
  match b with
  | poll_shouldShowWindow => poll
  | show_main_window => show_main
  end.

(** A one-shot timer leaves the table before its callback runs; a
    repeating one that its callback has not cleared is filed again, one
    period from now. *)
Definition refile (id : nat) (p : N) : Cmd :=
  fun w =>
    set_timers
      (map (fun t => if bool_decide (tid t = id)
                     then {| tid := tid t; due := (now w + p)%N;
                             period := period t; body := body t |}
                     else t) (timers w))
      (next_timer w) w.

Definition fire (t : Timer) : Cmd :=
  match period t with
  | None => drop_timer (tid t) >>> timer_body (body t)
  | Some p => timer_body (body t) >>> refile (tid t) p
  end.

Definition find_timer (id : nat) (w : World) : option Timer :=
  List.find (fun t => bool_decide (tid t = id)) (timers w).

(** One step of the event loop.  The host emits ['ready'] once, fires a
    timer only when it is due, and may change the flags of the main
    window behind the back of the script. *)
Definition step (ev : Event) (w : World) : option World :=
  match ev with
  | clock_advance ms => Some (set_now (now w + ms)%N w)
  | timer_fires id =>
      match find_timer id w with
      | Some t => if (due t <=? now w)%N then Some (fire t w) else None
      | None => None
      end
  | os_main_window mini maxi full =>
      Some (main_becomes
              (fun bw => set_fullScreen full
                           (set_maximized maxi (set_minimized mini bw))) w)
  | app_ready _ =>
      if ready_emitted w then None
      else Some (emit ev (set_ready_emitted true w))
  | _ => Some (emit ev w)
  end.

Fixpoint run (evs : list Event) (w : World) : option World :=
  match evs with
  | [] => Some w
  | ev :: evs' =>
      match step ev w with
      | Some w' => run evs' w'
      | None => None
      end
  end.

(** ** Vocabulary of the properties *)

(** A list of calls made at one instant. *)
Definition stamp (t : N) (l : list Call) : list (N * Entry) :=
  map (fun c => (t, called c)) l.

(** [Logs c l]: whatever the state, [c] makes the calls [l], in that
    order, and leaves the clock alone. *)
Definition Logs (c : Cmd) (l : list Call) : Prop :=
  forall w, log (c w) = log w ++ stamp (now w) l /\ now (c w) = now w.

(** What the handler does when it redirects. *)
Definition redirected (url : string) (w : World) : World :=
  set_log (log w ++ [ (now w, called event_preventDefault);
                      (now w, called (shell_openExternal url)) ]) w.

(** The calls of [skipUpdateCheck] once the splash window exists. *)
Definition skipUpdateCheck_calls (w : World) : list Call :=
  ([new_BrowserWindow Main main_options; Menu_setApplicationMenu;
    new_Tray "../icons/tray.png"]
   ++ (if __prod__ then [] else [openDevTools])
   ++ [loadURL (if __prod__ then mainUrlBase else localUrlBase)]
   ++ (if isMac then [webContents_send Main "@alerts/permissions"] else [])
   ++ [startRPC; RegisterKeybinds; HandleVoiceTray;
       StartNotificationHandler])
  ++ [webContents_send Splash "notfound"]
  ++ (if isLinux || negb __prod__
      then [webContents_send Splash "skipCheck"] else [])
  ++ match skipUpdateTimeout w with
     | Some id => [clearTimeout id]
     | None => []
     end
  ++ [setInterval (next_timer w) 1000].

(** A call that neither creates a window nor shows the main one. *)
Definition benign (c : Call) : bool :=
  match c with
  | new_BrowserWindow _ _ => false
  | win_show Main => false
  | _ => true
  end.

Definition quiet (e : Entry) : bool :=
  match e with
  | called c => benign c
  | emitted _ => true
  end.

(** Entries made at one instant. *)
Definition at_time (t : N) (l : list Entry) : list (N * Entry) :=
  map (fun e => (t, e)) l.

(** [tame w w']: between [w] and [w'] only quiet entries were logged, all at
    the instant of [w], and the clock, the timers, the listeners, the
    readiness flags and the nullness of [mainWindow] are as they were. *)
Record tame (w w' : World) : Prop := mk_tame {
  tame_now : now w' = now w;
  tame_timers : timers w' = timers w;
  tame_next_timer : next_timer w' = next_timer w;
  tame_shouldShowWindow : shouldShowWindow w' = shouldShowWindow w;
  tame_ready_emitted : ready_emitted w' = ready_emitted w;
  tame_listeners : listeners w' = listeners w;
  tame_is_null : is_null (mainWindow w') = is_null (mainWindow w);
  tame_log : exists l,
      log w' = log w ++ at_time (now w) l /\ forallb quiet l = true
}.

Definition Tame (c : Cmd) : Prop := forall w, tame w (c w).


(** The windows of kind [k] that a log shows to have been created. *)
Definition created (k : Win) (l : list (N * Entry)) : nat :=
  length (windows_created k (calls l)).

(** How many runs of the ['ready'] listener are still to come: the host
    emits ['ready'] once, to every listener registered for it by then. *)
Definition pending_ready (w : World) : nat :=
  if ready_emitted w then 0
  else length (filter (fun l => l = on_ready) (listeners w)).

(** Each window kind has been created at most [n] times, counting the
    runs of the ['ready'] listener still to come, and [mainWindow] is not
    [null]. *)
Record within_budget (n : nat) (w : World) : Prop := mk_budget {
  wb_main : created Main (log w) + pending_ready w <= n;
  wb_splash : created Splash (log w) + pending_ready w <= n;
  wb_not_null : is_null (mainWindow w) = false
}.

(** The events whose listeners are all tame. *)
Definition ordinary (ev : Event) : bool :=
  match ev with
  | app_ready _ | app_activate _ | main_ready_to_show
  | timer_fires _ | clock_advance _ => false
  | _ => true
  end.


(** What the window budget depends on. *)
Definition budget_view (w : World) : nat * nat * bool * list Listener * bool :=
  (created Main (log w), created Splash (log w), ready_emitted w,
   listeners w, is_null (mainWindow w)).

(** The timer that [skipUpdateCheck] files. *)
Definition poll_timer (w : World) : Timer :=
  {| tid := next_timer w; due := (now w + 1000)%N;
     period := Some 1000%N; body := poll_shouldShowWindow |}.


(** The timers that [skipUpdateCheck] leaves in the table. *)
Definition kept_timers (w : World) : list Timer :=
  match skipUpdateTimeout w with
  | Some id => filter (fun t => tid t <> id) (timers w)
  | None => timers w
  end.

(** The calls of the ['ready'] listener when the localisation resolves. *)
Definition ready_calls (w : World) : list Call :=
  [i18n_init; new_BrowserWindow Splash splash_options;
   loadFile "../resources/splash/splash-screen.html"]
  ++ skipUpdateCheck_calls w.


(** *** The hand-off from the splash window to the main window *)

(** The hand-off was started at [t_seen]: the log shows the main window
    reporting ['ready-to-show'] and, later in the log and no earlier in
    time, the message ["launch"] going out to the splash window at
    [t_seen]; by then the polling interval of one second, set up with
    [setInterval], had run for at least its 1000 ms. *)
Definition launched (l : list (N * Entry)) (t_seen : N) : Prop :=
  exists (t_ready t_set : N) (id : nat) (l1 l2 l3 : list (N * Entry)),
    l = l1 ++ (t_ready, emitted "ready-to-show")
           :: l2 ++ (t_seen, called (webContents_send Splash "launch")) :: l3
    /\ (t_ready <= t_seen)%N
    /\ (t_set, called (setInterval id 1000)) ∈ l
    /\ (t_set + 1000 <= t_seen)%N.

(** The main window was shown at [t] as the end of a hand-off: the splash
    window is destroyed and the main window shown at the same instant, at
    least 800 ms after the hand-off was started. *)
Definition shown_after_handoff (l : list (N * Entry)) (t : N) : Prop :=
  exists (t_seen : N) (l1 l2 : list (N * Entry)),
    l = l1 ++ (t, called (win_destroy Splash))
           :: (t, called (win_show Main)) :: l2
    /\ launched l1 t_seen
    /\ (t_seen + 800 <= t)%N.

(** What the log has to show for a timer that is still pending. *)
Definition timer_ok (l : list (N * Entry)) (tm : Timer) : Prop :=
  match body tm with
  | show_main_window =>
      period tm = None
      /\ exists t_seen, launched l t_seen /\ (t_seen + 800 <= due tm)%N
  | poll_shouldShowWindow =>
      period tm = Some 1000%N
      /\ exists t_set id,
           (t_set, called (setInterval id 1000)) ∈ l
           /\ (t_set + 1000 <= due tm)%N
  end.

Record handoff_inv (w : World) : Prop := mk_handoff {
  hi_past : Forall (fun e => (e.1 <= now w)%N) (log w);
  hi_flag : shouldShowWindow w = true ->
            exists t, (t, emitted "ready-to-show") ∈ log w;
  hi_timers : forall tm, tm ∈ timers w -> timer_ok (log w) tm;
  hi_shown : forall t, (t, called (win_show Main)) ∈ log w ->
             shown_after_handoff (log w) t
}.

(** The timer that the polling callback files. *)
Definition show_timer (w : World) : Timer :=
  {| tid := next_timer w; due := (now w + 800)%N;
     period := None; body := show_main_window |}.

(** The timers left once the polling callback has cleared its interval. *)
Definition unpolled_timers (w : World) : list Timer :=
  match windowShowInterval w with
  | Some id => filter (fun t => tid t <> id) (timers w)
  | None => timers w
  end.

Definition retimed (id : nat) (t : N) (tm : Timer) : Timer :=
  if bool_decide (tid tm = id)
  then {| tid := tid tm; due := t; period := period tm; body := body tm |}
  else tm.


(** Whether a call shows the main window. *)
Definition shows_main (c : Call) : bool :=
  match c with
  | win_show Main => true
  | _ => false
  end.


(** *** What the ordinary listeners may do *)

(** The calls made by the listeners of the inter-process channels, of the
    navigation events, of ['closed'], ['second-instance'],
    ['window-all-closed'] and of the splash window's ['did-finish-load']. *)
Definition ordinary_call (c : Call) : bool :=
  match c with
  | exitApp
  | globalShortcut_unregisterAll
  | overlay_destroy
  | win_destroy Main
  | win_close Main
  | win_restore Main
  | win_focus Main
  | win_maximize Main
  | win_unmaximize Main
  | win_minimize Main
  | win_setFullScreen Main _
  | event_preventDefault
  | shell_openExternal _
  | event_returnValue _
  | sender_send_hostPlatform _ _ _
  | throw_TypeError => true
  | askForMediaAccess mediaType => bool_decide (mediaType = "microphone")
  | webContents_send Splash channel => bool_decide (channel = "@locale/text")
  | _ => false
  end.

Definition only (P : Call -> bool) (e : Entry) : bool :=
  match e with
  | called c => P c
  | emitted _ => true
  end.

(** The main window is the same window, up to the flags that its methods
    change. *)
Definition same_window (s s' : Slot BrowserWindow) : Prop :=
  match s, s' with
  | object bw, object bw' =>
      options bw' = options bw
      /\ fullScreenable bw' = fullScreenable bw
      /\ maximizable bw' = maximizable bw
      /\ minimizable bw' = minimizable bw
  | undefined, undefined => True
  | null, null => True
  | _, _ => False
  end.

(** [steady w w']: [w'] is [w] with more log, all of it ordinary and made
    at the instant of [w], and possibly other flags on the main window.
    No variable of the script, no listener and no timer has changed. *)
Record steady (w w' : World) : Prop := mk_steady {
  steady_world : exists l,
      w' = set_log (log w ++ at_time (now w) l)
             (set_mainWindow (mainWindow w') w)
      /\ forallb (only ordinary_call) l = true;
  steady_window : same_window (mainWindow w) (mainWindow w')
}.

Definition Steady (c : Cmd) : Prop := forall w, steady w (c w).


(** *** Counting calls and timers *)

Global Instance Win_eq_dec : EqDecision Win.
Proof. solve_decision. Defined.

Global Instance BrowserWindowOptions_eq_dec : EqDecision BrowserWindowOptions.
Proof. solve_decision. Defined.

Global Instance Call_eq_dec : EqDecision Call.
Proof. solve_decision. Defined.

Global Instance TimerBody_eq_dec : EqDecision TimerBody.
Proof. solve_decision. Defined.

(** How often a call occurs in a log. *)
Definition count_call (c : Call) (l : list (N * Entry)) : nat :=
  length (filter (fun x => x = c) (calls l)).

(** How many pending timers run a given callback. *)
Definition count_timers (b : TimerBody) (ts : list Timer) : nat :=
  length (filter (fun t => body t = b) ts).

Definition launch : Call := webContents_send Splash "launch".


(** *** What every run keeps *)

(** The listeners registered by the body of the module when the lock was
    acquired, and those registered when the windows are created. *)
Definition boot_listeners : list Listener :=
  [on_ready; on_second_instance; on_window_all_closed; on_activate].

Definition window_listeners : list Listener :=
  [on_did_finish_load; once_ready_to_show; on_request_mic; on_closed;
   on_new_window; on_will_navigate; on_dogehouse_loaded; on_app_quit;
   on_app_maximize; on_app_minimize; on_app_hostPlatform].

(** The calls of the body of the module and of the ['ready'] listener, for
    the platform and the build at hand. *)
Definition startup_call (c : Call) : bool :=
  match c with
  | app_requestSingleInstanceLock
  | i18n_use_Backend
  | i18n_init
  | Menu_setApplicationMenu
  | startRPC
  | RegisterKeybinds
  | HandleVoiceTray
  | StartNotificationHandler => true
  | electronLogger_level level => bool_decide (level = "debug")
  | app_setAppUserModelId id =>
      bool_decide (id = "DogeHouse Reloaded") && isWin
  | app_relaunch => negb instanceLock && truthy_env hotReload
  | new_BrowserWindow Main o => bool_decide (o = main_options)
  | new_BrowserWindow Splash o => bool_decide (o = splash_options)
  | new_Tray icon => bool_decide (icon = "../icons/tray.png")
  | openDevTools => negb __prod__
  | loadURL url =>
      bool_decide (url = if __prod__ then mainUrlBase else localUrlBase)
  | loadFile file =>
      bool_decide (file = "../resources/splash/splash-screen.html")
  | webContents_send Main channel =>
      bool_decide (channel = "@alerts/permissions") && isMac
  | webContents_send Splash channel =>
      bool_decide (channel = "notfound")
      || (bool_decide (channel = "skipCheck") && (isLinux || negb __prod__))
  | setInterval _ ms => bool_decide (ms = 1000%N)
  | _ => false
  end.

(** The calls of the two timer callbacks. *)
Definition handoff_call (c : Call) : bool :=
  match c with
  | webContents_send Splash channel => bool_decide (channel = "launch")
  | clearInterval _ => true
  | setTimeout _ ms => bool_decide (ms = 800%N)
  | win_destroy Splash => true
  | win_show Main => true
  | throw_TypeError => true
  | _ => false
  end.

Definition may_call (c : Call) : bool :=
  ordinary_call c || startup_call c || handoff_call c.

(** The state that the ['ready'] listener leaves behind when the
    localisation resolves. *)
Definition after_ready (w : World) : World :=
  {| mainWindow := object (fresh_window main_options);
     splash := object (fresh_window splash_options);
     overlay := false;
     shouldShowWindow := shouldShowWindow w;
     windowShowInterval := Some (next_timer w);
     skipUpdateTimeout := skipUpdateTimeout w;
     listeners := listeners w ++ window_listeners;
     timers := kept_timers w ++ [poll_timer w];
     next_timer := S (next_timer w);
     now := now w;
     ready_emitted := ready_emitted w;
     log := log w ++ stamp (now w) (ready_calls w) |}.

(** The state that the polling callback leaves behind once the flag is set
    and the splash window exists. *)
Definition after_poll (w : World) : World :=
  set_timers (unpolled_timers w ++ [show_timer w]) (S (next_timer w))
    (set_log
       (log w ++ at_time (now w)
          ([called launch]
           ++ match windowShowInterval w with
              | Some id => [called (clearInterval id)]
              | None => []
              end
           ++ [called (setTimeout (next_timer w) 800)])) w).

(** What a run keeps true of the script's variables, of the listener and
    timer tables and of the log. *)
Record script_inv (w : World) : Prop := mk_script_inv {
  si_not_null : is_null (mainWindow w) = false;
  si_timeout_unset : skipUpdateTimeout w = None;
  si_listeners :
    sublist (listeners w)
      (if ready_emitted w then boot_listeners ++ window_listeners
       else boot_listeners);
  si_calls : forallb may_call (calls (log w)) = true;
  si_polls : forall tm, tm ∈ timers w -> body tm = poll_shouldShowWindow ->
             windowShowInterval w = Some (tid tm)
             /\ period tm = Some 1000%N;
  si_shows : forall tm, tm ∈ timers w -> body tm = show_main_window ->
             period tm = None;
  si_launch : count_call launch (log w)
              + count_timers poll_shouldShowWindow (timers w)
              + pending_ready w <= 1;
  si_shown : count_call (win_show Main) (log w)
             + count_timers show_main_window (timers w)
             <= count_call launch (log w);
  si_destroyed : count_call (win_destroy Splash) (log w)
                 + count_timers show_main_window (timers w)
                 <= count_call launch (log w)
}.


(** The world of a process that holds the lock, before any event, but for
    its log. *)
Definition fresh_world : World := set_listeners boot_listeners empty_world.

(** Whether an event is ['ready'] with the localisation resolved. *)
Definition starts_up (ev : Event) : bool :=
  match ev with
  | app_ready (resolved _) => true
  | _ => false
  end.


(** The state of a process that holds the lock and in which the
    continuation of [localize] has not run: no window, no timer, the
    listeners of the module body only. *)
Definition never_started (w : World) : Prop :=
  mainWindow w = undefined
  /\ splash w = undefined
  /\ timers w = []
  /\ listeners w = boot_listeners
  /\ forall k, windows_created k (calls (log w)) = [].


(** *** The main window on the screen *)




(** ** Properties *)

(** *** The log *)

Lemma log_call (c : Call) (w : World) :
  log (call c w) = log w ++ [(now w, called c)].
Proof. reflexivity. Qed.

Lemma appended_app (c : Cmd) (w : World) (l : list (N * Entry)) :
  log (c w) = log w ++ l -> appended c w = l.
Proof.
  intros H. unfold appended. rewrite H. apply drop_app_length.
Qed.

Lemma calls_of_app (c : Cmd) (w : World) (l : list (N * Entry)) :
  log (c w) = log w ++ l -> calls_of c w = calls l.
Proof.
  intros H. unfold calls_of. now rewrite (appended_app c w l H).
Qed.

Lemma calls_of_skip (w : World) : calls_of skip w = [].
Proof.
  apply (calls_of_app skip w []). unfold skip. now rewrite app_nil_r.
Qed.

(** *** The handler of links *)

Lemma redirect_spec (url : string) (w : World) :
  (call event_preventDefault >>> call (shell_openExternal url)) w
  = redirected url w.
Proof.
  unfold redirected, then_, call, record. simpl.
  now rewrite <- app_assoc.
Qed.

Lemma calls_of_redirected (url : string) (c : Cmd) (w : World) :
  c w = redirected url w ->
  calls_of c w = [event_preventDefault; shell_openExternal url].
Proof.
  intros H.
  apply (calls_of_app c w [ (now w, called event_preventDefault);
                            (now w, called (shell_openExternal url)) ]).
  now rewrite H.
Qed.

Lemma handleLinks_foreign (url : string) (urlObj : URL) (w : World) :
  new_URL url = Some urlObj ->
  hostname urlObj ∉ ALLOWED_HOSTS ->
  handleLinks url w = redirected url w.
Proof.
  intros Hp Hn. unfold handleLinks. rewrite Hp. cbn zeta.
  unfold includes. rewrite bool_decide_eq_false_2 by exact Hn.
  cbn [negb]. apply redirect_spec.
Qed.

(** Membership in a literal list of paths against the equalities the
    handler tests. *)
Ltac paths_absurd :=
  repeat match goal with
         | H : _ ∈ _ :: _ |- _ => apply elem_of_cons in H; destruct H
         | H : _ ∈ [] |- _ => apply elem_of_nil in H; exact H
         | H : ?p ∉ _ |- _ =>
             apply H; rewrite !elem_of_cons; tauto
         | H : ?a = ?b, H' : ?a <> ?b |- _ => exact (H' H)
         end.

(** On a host that sits at index 3 or 8 of the allow-list, and not at
    both, the handler redirects exactly the paths that are not on the
    list of that index. *)
Lemma handleLinks_restricted (i : nat) (url : string) (urlObj : URL)
    (w : World) :
  i = 3 \/ i = 8 ->
  ALLOWED_HOSTS !! 3 <> ALLOWED_HOSTS !! 8 ->
  new_URL url = Some urlObj ->
  ALLOWED_HOSTS !! i = Some (hostname urlObj) ->
  handleLinks url w =
    if bool_decide (pathname urlObj ∈ in_app_paths i) then w
    else redirected url w.
Proof.
  intros Hi Hd Hp Hh. unfold handleLinks. rewrite Hp. cbn zeta.
  assert (Hin : hostname urlObj ∈ ALLOWED_HOSTS).
  { apply list_elem_of_lookup. eauto. }
  unfold includes. rewrite bool_decide_eq_true_2 by exact Hin.
  cbn [negb]. unfold eq_at, strict_ne.
  destruct Hi as [-> | ->].
  - rewrite (bool_decide_eq_true_2 _ Hh).
    assert (H8 : ALLOWED_HOSTS !! 8 <> Some (hostname urlObj)) by congruence.
    rewrite (bool_decide_eq_false_2 _ H8).
    cbn [andb orb]. rewrite orb_false_r.
    unfold in_app_paths.
    repeat case_bool_decide; cbn [negb andb];
      try reflexivity; try apply redirect_spec;
      exfalso; paths_absurd.
  - rewrite (bool_decide_eq_true_2 _ Hh).
    assert (H3 : ALLOWED_HOSTS !! 3 <> Some (hostname urlObj)) by congruence.
    rewrite (bool_decide_eq_false_2 _ H3).
    cbn [andb orb].
    unfold in_app_paths.
    repeat case_bool_decide; cbn [negb andb];
      try reflexivity; try apply redirect_spec;
      exfalso; paths_absurd.
Qed.

(** C1. A navigation or new-window URL whose hostname is not in
    [ALLOWED_HOSTS] is kept out of the application and handed to the
    default browser: the listener bound to ['new-window'] and the one
    bound to ['will-navigate'] both call [event.preventDefault()] and
    then [shell.openExternal(url)], and change nothing else. *)
Theorem foreign_host_is_opened_externally
    (url : string) (urlObj : URL) (l : Listener) (ev : Event) (w : World) :
  new_URL url = Some urlObj ->
  hostname urlObj ∉ ALLOWED_HOSTS ->
  (l = on_new_window /\ ev = web_new_window url)
  \/ (l = on_will_navigate /\ ev = web_will_navigate url) ->
  exists c : Cmd,
    listener_body l ev = Some c
    /\ c w = redirected url w
    /\ calls_of c w = [event_preventDefault; shell_openExternal url].
Proof.
  intros Hp Hn [[-> ->] | [-> ->]]; exists (handleLinks url);
    (split; [reflexivity |]);
    pose proof (handleLinks_foreign url urlObj w Hp Hn) as H;
    (split; [exact H | now apply calls_of_redirected]).
Qed.

(** C2. On the host at index 3 of the allow-list (paths [/login],
    [/session], [/sessions/two-factor], [/sessions/two-factor/webauthn])
    and on the host at index 8 (path [/account/login_verification]), the
    two hosts being different, a navigation to a path that is on the list
    of the host stays in the application (the handler does nothing), and a
    navigation to any other path on that host is prevented and opened
    externally. *)
Theorem listed_path_stays_in_app_others_are_redirected
    (i : nat) (url : string) (urlObj : URL) (w : World) :
  i = 3 \/ i = 8 ->
  ALLOWED_HOSTS !! 3 <> ALLOWED_HOSTS !! 8 ->
  new_URL url = Some urlObj ->
  ALLOWED_HOSTS !! i = Some (hostname urlObj) ->
  (pathname urlObj ∈ in_app_paths i ->
     handleLinks url w = w /\ calls_of (handleLinks url) w = [])
  /\ (pathname urlObj ∉ in_app_paths i ->
        handleLinks url w = redirected url w
        /\ calls_of (handleLinks url) w
           = [event_preventDefault; shell_openExternal url]).
Proof.
  intros Hi Hd Hp Hh.
  pose proof (handleLinks_restricted i url urlObj w Hi Hd Hp Hh) as H.
  split; intros Hpath.
  - rewrite bool_decide_eq_true_2 in H by exact Hpath.
    split; [exact H |].
    apply (calls_of_app _ w []). rewrite H. now rewrite app_nil_r.
  - rewrite bool_decide_eq_false_2 in H by exact Hpath.
    split; [exact H | now apply calls_of_redirected].
Qed.

(** C3, as the code has it.  On the two hosts with path lists, under the
    conditions of C2, [shell.openExternal] is called exactly for the
    paths that are NOT on the list of the host: a listed path does not
    trigger the external open, every other path on that host does. *)
Theorem external_open_iff_path_not_listed
    (i : nat) (url : string) (urlObj : URL) (w : World) :
  i = 3 \/ i = 8 ->
  ALLOWED_HOSTS !! 3 <> ALLOWED_HOSTS !! 8 ->
  new_URL url = Some urlObj ->
  ALLOWED_HOSTS !! i = Some (hostname urlObj) ->
  shell_openExternal url ∈ calls_of (handleLinks url) w
  <-> pathname urlObj ∉ in_app_paths i.
Proof.
  intros Hi Hd Hp Hh.
  pose proof (handleLinks_restricted i url urlObj w Hi Hd Hp Hh) as H.
  case_bool_decide as Hpath.
  - split; [| tauto]. intros Hin.
    rewrite (calls_of_app _ w []) in Hin
      by (rewrite H; now rewrite app_nil_r).
    cbn in Hin. now apply elem_of_nil in Hin.
  - split; [tauto |]. intros _.
    rewrite (calls_of_redirected url _ w H).
    apply elem_of_cons. right. apply elem_of_cons. now left.
Qed.


(** *** Closures that only log *)

Lemma calls_stamp (t : N) (l : list Call) : calls (stamp t l) = l.
Proof. induction l as [| c l IH]; [reflexivity |]. cbn. now f_equal. Qed.

Lemma Logs_calls_of (c : Cmd) (l : list Call) (w : World) :
  Logs c l -> calls_of c w = l.
Proof.
  intros H. destruct (H w) as [Hl _].
  rewrite (calls_of_app c w _ Hl). apply calls_stamp.
Qed.

Lemma Logs_skip : Logs skip [].
Proof. intros w. split; [| reflexivity]. cbn. now rewrite app_nil_r. Qed.

Lemma Logs_call (x : Call) : Logs (call x) [x].
Proof. intros w. split; reflexivity. Qed.

Lemma Logs_then (c d : Cmd) (l l' : list Call) :
  Logs c l -> Logs d l' -> Logs (c >>> d) (l ++ l').
Proof.
  intros Hc Hd w. unfold then_.
  destruct (Hc w) as [Hl Hn]. destruct (Hd (c w)) as [Hl' Hn'].
  split; [| congruence].
  rewrite Hl', Hl, Hn. unfold stamp. rewrite map_app. now rewrite app_assoc.
Qed.

Lemma Logs_when (b : bool) (c : Cmd) (l : list Call) :
  Logs c l -> Logs (when b c) (if b then l else []).
Proof. destruct b; [trivial | intros _; apply Logs_skip]. Qed.

Lemma Logs_register (l : Listener) : Logs (register l) [].
Proof. intros w. split; [| reflexivity]. cbn. now rewrite app_nil_r. Qed.

Lemma Logs_set_mainWindow (s : Slot BrowserWindow) : Logs (set_mainWindow s) [].
Proof. intros w. split; [| reflexivity]. cbn. now rewrite app_nil_r. Qed.

Lemma Logs_set_splash (s : Slot BrowserWindow) : Logs (set_splash s) [].
Proof. intros w. split; [| reflexivity]. cbn. now rewrite app_nil_r. Qed.

Lemma Logs_set_overlay (b : bool) : Logs (set_overlay b) [].
Proof. intros w. split; [| reflexivity]. cbn. now rewrite app_nil_r. Qed.

Lemma Logs_eq (c : Cmd) (l l' : list Call) : Logs c l -> l = l' -> Logs c l'.
Proof. now intros H <-. Qed.

Create HintDb logs.
#[local] Hint Resolve Logs_skip Logs_call Logs_then Logs_when Logs_register
  Logs_set_mainWindow Logs_set_splash Logs_set_overlay : logs.

Ltac solve_logs :=
  eapply Logs_eq; [solve [eauto 40 with logs] | reflexivity].

(** Runs a closure symbolically and reads off what it appended. *)
Ltac run_closure :=
  cbv beta delta
    [then_ call record when skip with_main with_splash main_becomes
     register unregister schedule drop_timer clear
     set_log set_mainWindow set_splash set_overlay set_listeners
     set_timers set_windowShowInterval set_shouldShowWindow] iota;
  cbn [log now mainWindow splash overlay shouldShowWindow
       windowShowInterval skipUpdateTimeout listeners timers next_timer
       ready_emitted].

(** The same on a world given field by field. *)
Ltac eval_closure :=
  cbv beta iota zeta delta
    [then_ call record when skip with_main with_splash main_becomes
     register unregister schedule drop_timer clear
     set_log set_mainWindow set_splash set_overlay set_listeners
     set_timers set_windowShowInterval set_shouldShowWindow
     log now mainWindow splash overlay shouldShowWindow
     windowShowInterval skipUpdateTimeout listeners timers next_timer
     ready_emitted].

Ltac read_calls :=
  erewrite calls_of_app;
  [| run_closure; rewrite <- ?app_assoc; cbn [app]; reflexivity];
  try reflexivity.

(** C7. For every ['request-mic'] message the handler asks the host once
    for access to the microphone and, when the request resolves to the
    boolean [isAllowed], replies with exactly that boolean as the return
    value of the message: one request, one reply, nothing else (so a
    denial reaches the sender only as [false], and nothing is retried).
    A request that does not resolve at all is followed by no reply and no
    report. *)
Theorem request_mic_replies_with_permission_result
    (isAllowed : bool) (w : World) :
  listener_body on_request_mic (ipc_request_mic (resolved isAllowed))
    = Some (request_mic (resolved isAllowed))
  /\ request_mic (resolved isAllowed) w
     = set_log (log w ++ [ (now w, called (askForMediaAccess "microphone"));
                           (now w, called (event_returnValue isAllowed)) ]) w
  /\ calls_of (request_mic (resolved isAllowed)) w
     = [askForMediaAccess "microphone"; event_returnValue isAllowed]
  /\ calls_of (request_mic rejected) w = [askForMediaAccess "microphone"].
Proof.
  split; [reflexivity |]. split; [| split].
  - unfold request_mic. run_closure. now rewrite <- app_assoc.
  - unfold request_mic. read_calls.
  - unfold request_mic. read_calls.
Qed.

(** C10. The ['@app/maximize'] message is a guarded toggle.  On macOS,
    a window that can go full screen has its full-screen state flipped
    and one that cannot is left as it is; elsewhere, a window that can be
    maximized is unmaximized when it is maximized and maximized when it
    is not, and one that cannot be maximized is left as it is. *)
Theorem app_maximize_is_a_guarded_toggle (bw : BrowserWindow) (w : World) :
  mainWindow w = object bw ->
  listener_body on_app_maximize ipc_app_maximize = Some app_maximize
  /\ (isMac = true ->
      (fullScreenable bw = true ->
         calls_of app_maximize w
           = [win_setFullScreen Main (negb (fullScreen bw))]
         /\ mainWindow (app_maximize w)
            = object (set_fullScreen (negb (fullScreen bw)) bw))
      /\ (fullScreenable bw = false -> app_maximize w = w))
  /\ (isMac = false ->
      (maximizable bw = true -> maximized bw = true ->
         calls_of app_maximize w = [win_unmaximize Main]
         /\ mainWindow (app_maximize w) = object (set_maximized false bw))
      /\ (maximizable bw = true -> maximized bw = false ->
            calls_of app_maximize w = [win_maximize Main]
            /\ mainWindow (app_maximize w) = object (set_maximized true bw))
      /\ (maximizable bw = false -> app_maximize w = w)).
Proof.
  intros Hm. split; [reflexivity |].
  split; intros Hmac.
  - split.
    + intros Hf. split.
      * erewrite calls_of_app;
          [| unfold app_maximize, with_main; rewrite Hm, Hmac, Hf;
             run_closure; rewrite Hm; reflexivity ].
        reflexivity.
      * unfold app_maximize, with_main. rewrite Hm, Hmac, Hf.
        run_closure. now rewrite Hm.
    + intros Hf. unfold app_maximize, with_main.
      now rewrite Hm, Hmac, Hf.
  - split; [| split].
    + intros Hc Hx. split.
      * erewrite calls_of_app;
          [| unfold app_maximize, with_main; rewrite Hm, Hmac, Hc, Hx;
             run_closure; rewrite Hm; reflexivity ].
        reflexivity.
      * unfold app_maximize, with_main. rewrite Hm, Hmac, Hc, Hx.
        run_closure. now rewrite Hm.
    + intros Hc Hx. split.
      * erewrite calls_of_app;
          [| unfold app_maximize, with_main; rewrite Hm, Hmac, Hc, Hx;
             run_closure; rewrite Hm; reflexivity ].
        reflexivity.
      * unfold app_maximize, with_main. rewrite Hm, Hmac, Hc, Hx.
        run_closure. now rewrite Hm.
    + intros Hc. unfold app_maximize, with_main.
      now rewrite Hm, Hmac, Hc.
Qed.

(** *** Window creation *)

Lemma createMainWindow_logs :
  Logs createMainWindow
    ([new_BrowserWindow Main main_options; Menu_setApplicationMenu;
      new_Tray "../icons/tray.png"]
     ++ (if __prod__ then [] else [openDevTools])
     ++ [loadURL (if __prod__ then mainUrlBase else localUrlBase)]
     ++ (if isMac then [webContents_send Main "@alerts/permissions"] else [])
     ++ [startRPC; RegisterKeybinds; HandleVoiceTray;
         StartNotificationHandler]).
Proof.
  unfold createMainWindow. destruct __prod__, isMac; cbn [negb]; solve_logs.
Qed.

Lemma createSplashWindow_logs :
  Logs createSplashWindow
    [new_BrowserWindow Splash splash_options;
     loadFile "../resources/splash/splash-screen.html"].
Proof. unfold createSplashWindow. solve_logs. Qed.

(** C9, as the code has it.  The main window is created with width 1500,
    height 800 and minimum bounds 400 by 600; the splash window is
    created 290 by 400, frameless and transparent, and with
    [resizable: true], so that its size is an initial size and not a
    fixed one. *)
Theorem window_geometry_at_creation (w : World) :
  windows_created Main (calls_of createMainWindow w) = [main_options]
  /\ width main_options = 1500%Z
  /\ height main_options = 800%Z
  /\ minWidth main_options = Some 400%Z
  /\ minHeight main_options = Some 600%Z
  /\ windows_created Splash (calls_of createSplashWindow w)
     = [splash_options]
  /\ width splash_options = 290%Z
  /\ height splash_options = 400%Z
  /\ frame splash_options = Some false
  /\ transparent splash_options = Some true
  /\ resizable splash_options = Some true.
Proof.
  split.
  { rewrite (Logs_calls_of _ _ w createMainWindow_logs).
    now destruct __prod__, isMac. }
  do 4 (split; [reflexivity |]).
  split.
  { now rewrite (Logs_calls_of _ _ w createSplashWindow_logs). }
  repeat split; reflexivity.
Qed.


(** What [createMainWindow] leaves alone. *)
Lemma createMainWindow_frame (w : World) :
  splash (createMainWindow w) = splash w
  /\ skipUpdateTimeout (createMainWindow w) = skipUpdateTimeout w
  /\ windowShowInterval (createMainWindow w) = windowShowInterval w
  /\ timers (createMainWindow w) = timers w
  /\ next_timer (createMainWindow w) = next_timer w
  /\ shouldShowWindow (createMainWindow w) = shouldShowWindow w
  /\ ready_emitted (createMainWindow w) = ready_emitted w
  /\ mainWindow (createMainWindow w) = object (fresh_window main_options).
Proof.
  unfold createMainWindow. destruct __prod__, isMac; repeat split; reflexivity.
Qed.

Lemma createSplashWindow_frame (w : World) :
  splash (createSplashWindow w) = object (fresh_window splash_options)
  /\ skipUpdateTimeout (createSplashWindow w) = skipUpdateTimeout w
  /\ windowShowInterval (createSplashWindow w) = windowShowInterval w
  /\ timers (createSplashWindow w) = timers w
  /\ next_timer (createSplashWindow w) = next_timer w
  /\ shouldShowWindow (createSplashWindow w) = shouldShowWindow w
  /\ ready_emitted (createSplashWindow w) = ready_emitted w
  /\ mainWindow (createSplashWindow w) = mainWindow w.
Proof. repeat split; reflexivity. Qed.

(** The part of [skipUpdateCheck] that follows [createMainWindow]. *)
Lemma announce_and_poll (w : World) :
  let c :=
    call (webContents_send Splash "notfound") >>>
    when (isLinux || negb __prod__)
      (call (webContents_send Splash "skipCheck")) >>>
    (fun w => clear clearTimeout (skipUpdateTimeout w) w) >>>
    schedule setInterval true 1000 poll_shouldShowWindow
      (fun id => set_windowShowInterval (Some id)) in
  log (c w)
  = log w ++ stamp (now w)
      ([webContents_send Splash "notfound"]
       ++ (if isLinux || negb __prod__
           then [webContents_send Splash "skipCheck"] else [])
       ++ match skipUpdateTimeout w with
          | Some id => [clearTimeout id]
          | None => []
          end
       ++ [setInterval (next_timer w) 1000])
  /\ now (c w) = now w
  /\ shouldShowWindow (c w) = shouldShowWindow w
  /\ ready_emitted (c w) = ready_emitted w
  /\ mainWindow (c w) = mainWindow w
  /\ next_timer (c w) = S (next_timer w)
  /\ timers (c w) = kept_timers w ++ [poll_timer w].
Proof.
  destruct w as [mw sp ov fl wi sk ls ti nx nw re lg].
  unfold kept_timers, poll_timer.
  cbn [skipUpdateTimeout timers next_timer now log shouldShowWindow
       ready_emitted mainWindow].
  destruct (isLinux || negb __prod__), sk;
    eval_closure; rewrite <- ?app_assoc; repeat split; reflexivity.
Qed.

Lemma skipUpdateCheck_log (s : BrowserWindow) (w : World) :
  splash w = object s ->
  log (skipUpdateCheck w) = log w ++ stamp (now w) (skipUpdateCheck_calls w).
Proof.
  intros Hs.
  destruct (createMainWindow_frame w) as (Hsp & Hsk & _ & _ & Hnx & _).
  destruct (createMainWindow_logs w) as [Hlog Hnow].
  destruct (announce_and_poll (createMainWindow w)) as (H0 & _).
  cbv zeta in H0.
  unfold skipUpdateCheck, then_ at 1, with_splash.
  rewrite Hsp, Hs, H0, Hlog, Hnow, Hsk, Hnx.
  unfold skipUpdateCheck_calls, stamp.
  rewrite !map_app, <- !app_assoc. reflexivity.
Qed.

Lemma splash_sends_app (l l' : list Call) :
  splash_sends (l ++ l') = splash_sends l ++ splash_sends l'.
Proof. apply omap_app. Qed.

Lemma splash_sends_skipUpdateCheck_calls (w : World) :
  splash_sends (skipUpdateCheck_calls w)
  = "notfound" :: (if isLinux || negb __prod__ then ["skipCheck"] else []).
Proof.
  unfold skipUpdateCheck_calls.
  destruct __prod__, isMac, isLinux, (skipUpdateTimeout w); reflexivity.
Qed.

(** C8. The update check is a stub.  Whenever [skipUpdateCheck] runs (the
    ['ready'] listener runs it right after it has created the splash
    window), it sends ["notfound"] to the splash window, once and
    unconditionally, and after it ["skipCheck"] exactly when the platform
    is Linux or the build is not packaged; these are its only messages to
    the splash window. *)
Theorem update_check_always_reports_notfound
    (s : BrowserWindow) (u : unit) (w : World) :
  splash_sends (calls_of skipUpdateCheck (set_splash (object s) w))
    = "notfound" :: (if isLinux || negb __prod__ then ["skipCheck"] else [])
  /\ listener_body on_ready (app_ready (resolved u)) = Some (ready (resolved u))
  /\ splash_sends (calls_of (ready (resolved u)) w)
     = "notfound" :: (if isLinux || negb __prod__ then ["skipCheck"] else []).
Proof.
  split; [| split; [reflexivity |]].
  - rewrite (calls_of_app _ _ _
               (skipUpdateCheck_log s (set_splash (object s) w) eq_refl)).
    rewrite calls_stamp. apply splash_sends_skipUpdateCheck_calls.
  - unfold ready, localize_then.
    assert (Hl : log ((call i18n_init >>> createSplashWindow
                       >>> skipUpdateCheck) w)
                 = log w ++ stamp (now w)
                     ([i18n_init]
                      ++ [new_BrowserWindow Splash splash_options;
                          loadFile "../resources/splash/splash-screen.html"]
                      ++ skipUpdateCheck_calls
                           (createSplashWindow (call i18n_init w)))).
    { unfold then_.
      rewrite (skipUpdateCheck_log (fresh_window splash_options))
        by reflexivity.
      destruct (createSplashWindow_logs (call i18n_init w)) as [-> ->].
      rewrite log_call. unfold stamp. cbn [now call record set_log].
      rewrite !map_app, <- !app_assoc. reflexivity. }
    rewrite (calls_of_app _ _ _ Hl), calls_stamp.
    rewrite !splash_sends_app, splash_sends_skipUpdateCheck_calls.
    reflexivity.
Qed.


(** *** Closures that disturb nothing *)

Lemma tame_refl (w : World) : tame w w.
Proof.
  constructor; try reflexivity. exists []. cbn. now rewrite app_nil_r.
Qed.

Lemma tame_trans (w1 w2 w3 : World) : tame w1 w2 -> tame w2 w3 -> tame w1 w3.
Proof.
  intros [n1 t1 x1 s1 r1 l1 m1 (a & Ha & Pa)] [n2 t2 x2 s2 r2 l2 m2 (b & Hb & Pb)].
  constructor; try congruence.
  exists (a ++ b). split.
  - rewrite Hb, Ha, n1. unfold at_time. now rewrite map_app, app_assoc.
  - rewrite forallb_app. now rewrite Pa, Pb.
Qed.

Lemma Tame_skip : Tame skip.
Proof. intros w. apply tame_refl. Qed.

Lemma Tame_then (c d : Cmd) : Tame c -> Tame d -> Tame (c >>> d).
Proof. intros Hc Hd w. exact (tame_trans _ _ _ (Hc w) (Hd (c w))). Qed.

Lemma Tame_when (b : bool) (c : Cmd) : Tame c -> Tame (when b c).
Proof. destruct b; [trivial | intros _; apply Tame_skip]. Qed.

Lemma Tame_record (e : Entry) : quiet e = true -> Tame (record e).
Proof.
  intros He w. constructor; try reflexivity.
  exists [e]. split; [reflexivity |]. cbn. now rewrite He.
Qed.

Lemma Tame_call (x : Call) : benign x = true -> Tame (call x).
Proof. intros Hx. now apply Tame_record. Qed.

Lemma Tame_main_becomes (f : BrowserWindow -> BrowserWindow) :
  Tame (main_becomes f).
Proof.
  intros w. unfold main_becomes.
  destruct (mainWindow w) eqn:Hm; try apply tame_refl.
  constructor; try reflexivity.
  - cbn. now rewrite Hm.
  - exists []. cbn. now rewrite app_nil_r.
Qed.

Lemma Tame_with_main (k : BrowserWindow -> Cmd) :
  (forall bw, Tame (k bw)) -> Tame (with_main k).
Proof.
  intros Hk w. unfold with_main.
  destruct (mainWindow w); try (now apply Tame_call). apply Hk.
Qed.

Lemma Tame_with_splash (k : BrowserWindow -> Cmd) :
  (forall bw, Tame (k bw)) -> Tame (with_splash k).
Proof.
  intros Hk w. unfold with_splash.
  destruct (splash w); try (now apply Tame_call). apply Hk.
Qed.

Lemma Tame_if (b : bool) (c d : Cmd) :
  Tame c -> Tame d -> Tame (if b then c else d).
Proof. now destruct b. Qed.

Create HintDb tame.
#[local] Hint Resolve Tame_skip Tame_then Tame_when Tame_main_becomes
  Tame_with_main Tame_with_splash Tame_if : tame.
#[local] Hint Extern 1 (Tame (call _)) =>
  (apply Tame_call; reflexivity) : tame.

Lemma Tame_handleLinks (url : string) : Tame (handleLinks url).
Proof.
  unfold handleLinks. destruct (new_URL url); auto 10 with tame.
Qed.

Lemma Tame_request_mic (answer : Settled bool) : Tame (request_mic answer).
Proof. unfold request_mic. destruct answer; auto 10 with tame. Qed.

Lemma Tame_app_maximize : Tame app_maximize.
Proof.
  unfold app_maximize. apply Tame_with_main. intros bw.
  destruct isMac, (maximized bw); auto 10 with tame.
Qed.

Lemma Tame_app_minimize : Tame app_minimize.
Proof. unfold app_minimize. auto 10 with tame. Qed.

Lemma Tame_closed : Tame closed.
Proof.
  unfold closed. apply Tame_then; [auto with tame |].
  apply Tame_then; [| auto 10 with tame].
  intros w. apply Tame_when. auto with tame.
Qed.

Lemma Tame_second_instance : Tame second_instance.
Proof.
  intros w. unfold second_instance.
  destruct (mainWindow w) as [| | bw]; try apply tame_refl.
  destruct (truthy_env hotReload).
  - now apply Tame_call.
  - apply Tame_then; auto 10 with tame.
Qed.

(** Every listener but the three that drive the start-up is tame. *)
Lemma listener_body_tame (l : Listener) (ev : Event) (c : Cmd) :
  listener_body l ev = Some c ->
  l <> on_ready -> l <> on_activate -> l <> once_ready_to_show ->
  Tame c.
Proof.
  intros H H1 H2 H3.
  destruct l; try congruence; destruct ev; try discriminate H;
    injection H as <-;
    auto using Tame_handleLinks, Tame_request_mic, Tame_app_maximize,
      Tame_app_minimize, Tame_closed, Tame_second_instance;
    auto 10 with tame.
Qed.


(** *** Delivering an event *)

Lemma run_listeners_stable (I : World -> Prop) (ls : list Listener)
    (ev : Event) :
  (forall l c, listener_body l ev = Some c -> forall w, I w -> I (c w)) ->
  forall w, I w -> I (run_listeners ls ev w).
Proof.
  intros H. induction ls as [| l ls IH]; intros w Hw; [exact Hw |].
  cbn [run_listeners]. destruct (listener_body l ev) as [c |] eqn:E.
  - unfold then_. apply IH. now apply (H l c).
  - now apply IH.
Qed.

Lemma run_listeners_tame (ls : list Listener) (ev : Event) :
  ordinary ev = true -> Tame (run_listeners ls ev).
Proof.
  intros Hev. induction ls as [| l ls IH]; [apply Tame_skip |].
  cbn [run_listeners]. destruct (listener_body l ev) as [c |] eqn:E; [| exact IH].
  apply Tame_then; [| exact IH].
  apply (listener_body_tame l ev c E);
    intros ->; destruct ev; discriminate.
Qed.

Lemma emit_tame (ev : Event) : ordinary ev = true -> Tame (emit ev).
Proof.
  intros Hev. unfold emit. apply Tame_then.
  - now apply Tame_record.
  - intros w. now apply run_listeners_tame.
Qed.

Lemma step_ordinary_tame (ev : Event) (w w' : World) :
  ordinary ev = true -> step ev w = Some w' -> tame w w'.
Proof.
  intros Hev Hs.
  destruct ev; try discriminate Hev; cbn [step] in Hs;
    injection Hs as <-; try (now apply emit_tame).
  apply Tame_main_becomes.
Qed.

Lemma run_invariant (I : World -> Prop) :
  (forall ev w w', I w -> step ev w = Some w' -> I w') ->
  forall evs w w', I w -> run evs w = Some w' -> I w'.
Proof.
  intros H evs. induction evs as [| ev evs IH]; intros w w' Hw Hr.
  - cbn in Hr. now injection Hr as <-.
  - cbn [run] in Hr. destruct (step ev w) as [w1 |] eqn:E; [| discriminate].
    exact (IH w1 w' (H ev w w1 Hw E) Hr).
Qed.


(** *** Counting the windows created *)

Lemma calls_app (l l' : list (N * Entry)) : calls (l ++ l') = calls l ++ calls l'.
Proof. apply omap_app. Qed.

Lemma created_app (k : Win) (l l' : list (N * Entry)) :
  created k (l ++ l') = created k l + created k l'.
Proof.
  unfold created, windows_created. now rewrite calls_app, omap_app, length_app.
Qed.

Lemma created_stamp (k : Win) (t : N) (l : list Call) :
  created k (stamp t l) = length (windows_created k l).
Proof. unfold created. now rewrite calls_stamp. Qed.

Lemma created_quiet (k : Win) (t : N) (l : list Entry) :
  forallb quiet l = true -> created k (at_time t l) = 0.
Proof.
  induction l as [| e l IH]; [reflexivity |].
  cbn [forallb]. intros [He Hl]%andb_true_iff.
  change (at_time t (e :: l)) with ([(t, e)] ++ at_time t l).
  rewrite created_app, (IH Hl), Nat.add_0_r.
  destruct e as [c |]; [| reflexivity].
  destruct c; try discriminate He; try reflexivity.
Qed.

Lemma created_call (k : Win) (x : Call) (w : World) :
  benign x = true -> created k (log (call x w)) = created k (log w).
Proof.
  intros Hx. rewrite log_call.
  change [(now w, called x)] with (at_time (now w) [called x]).
  rewrite created_app, created_quiet; [lia |]. cbn. now rewrite Hx.
Qed.

Lemma tame_budget_view (w w' : World) : tame w w' -> budget_view w' = budget_view w.
Proof.
  intros [_ _ _ _ Hr Hl Hm (l & Hlog & Hq)]. unfold budget_view.
  rewrite Hr, Hl, Hm, Hlog, !created_app, !created_quiet by exact Hq.
  now rewrite !Nat.add_0_r.
Qed.

Lemma within_budget_view (n : nat) (w w' : World) :
  budget_view w' = budget_view w -> within_budget n w -> within_budget n w'.
Proof.
  unfold budget_view. intros H [Hm Hs Hn].
  injection H as H1 H2 H3 H4 H5.
  constructor; unfold pending_ready in *; rewrite ?H1, ?H2, ?H3, ?H4, ?H5;
    assumption.
Qed.

(** *** The timers and the window budget *)

Lemma view_call (x : Call) (w : World) :
  benign x = true -> budget_view (call x w) = budget_view w.
Proof. intros Hx. apply tame_budget_view. now apply Tame_call. Qed.

Lemma view_set_timers (l : list Timer) (n : nat) (w : World) :
  budget_view (set_timers l n w) = budget_view w.
Proof. reflexivity. Qed.

Lemma view_clear (c : nat -> Call) (x : option nat) (w : World) :
  (forall id, benign (c id) = true) ->
  budget_view (clear c x w) = budget_view w.
Proof.
  intros Hc. destruct x as [id |]; [| reflexivity].
  unfold clear, then_, drop_timer. rewrite view_set_timers.
  now apply view_call.
Qed.

Lemma view_show_main (w : World) :
  created Main (log (show_main w)) = created Main (log w)
  /\ created Splash (log (show_main w)) = created Splash (log w)
  /\ ready_emitted (show_main w) = ready_emitted w
  /\ listeners (show_main w) = listeners w
  /\ mainWindow (show_main w) = mainWindow w.
Proof.
  unfold show_main, with_splash, with_main, then_.
  destruct (splash w) eqn:Hs; destruct (mainWindow w) eqn:Hm;
    cbn [call record set_log mainWindow log now]; rewrite ?Hm;
    cbn [call record set_log mainWindow log now ready_emitted listeners];
    rewrite ?created_app; cbn; repeat split;
    try lia; try reflexivity; try assumption.
Qed.

Lemma view_poll (w : World) : budget_view (poll w) = budget_view w.
Proof.
  unfold poll. destruct (shouldShowWindow w); [| reflexivity].
  unfold with_splash.
  destruct (splash w); try (now apply view_call).
  unfold then_, schedule, skip. rewrite view_set_timers.
  rewrite view_call by reflexivity.
  rewrite view_clear by reflexivity.
  now apply view_call.
Qed.

Lemma view_fire (t : Timer) (w : World) :
  created Main (log (fire t w)) = created Main (log w)
  /\ created Splash (log (fire t w)) = created Splash (log w)
  /\ ready_emitted (fire t w) = ready_emitted w
  /\ listeners (fire t w) = listeners w
  /\ is_null (mainWindow (fire t w)) = is_null (mainWindow w).
Proof.
  unfold fire, then_, refile, drop_timer.
  destruct (period t), (body t); cbn [timer_body].
  - pose proof (view_poll w) as H. unfold budget_view in H.
    injection H as H1 H2 H3 H4 H5. cbn. repeat split; assumption.
  - destruct (view_show_main w) as (H1 & H2 & H3 & H4 & H5).
    cbn. rewrite H5. repeat split; assumption.
  - pose proof (view_poll (set_timers
        (filter (fun t0 => tid t0 <> tid t) (timers w)) (next_timer w) w)) as H.
    unfold budget_view in H. injection H as H1 H2 H3 H4 H5.
    repeat split; assumption.
  - destruct (view_show_main (set_timers
        (filter (fun t0 => tid t0 <> tid t) (timers w)) (next_timer w) w))
      as (H1 & H2 & H3 & H4 & H5).
    rewrite H5. repeat split; assumption.
Qed.


(** *** The start-up sequence *)

Lemma skipUpdateCheck_state (s : BrowserWindow) (w : World) :
  splash w = object s ->
  log (skipUpdateCheck w) = log w ++ stamp (now w) (skipUpdateCheck_calls w)
  /\ now (skipUpdateCheck w) = now w
  /\ shouldShowWindow (skipUpdateCheck w) = shouldShowWindow w
  /\ ready_emitted (skipUpdateCheck w) = ready_emitted w
  /\ mainWindow (skipUpdateCheck w) = object (fresh_window main_options)
  /\ next_timer (skipUpdateCheck w) = S (next_timer w)
  /\ timers (skipUpdateCheck w) = kept_timers w ++ [poll_timer w].
Proof.
  intros Hs. split; [exact (skipUpdateCheck_log s w Hs) |].
  destruct (createMainWindow_frame w)
    as (Hsp & Hsk & _ & Hti & Hnx & Hfl & Hre & Hmw).
  destruct (createMainWindow_logs w) as [_ Hnow].
  destruct (announce_and_poll (createMainWindow w))
    as (_ & H1 & H2 & H3 & H4 & H5 & H6).
  cbv zeta in H1, H2, H3, H4, H5, H6.
  assert (E : skipUpdateCheck w
              = (call (webContents_send Splash "notfound") >>>
                 when (isLinux || negb __prod__)
                   (call (webContents_send Splash "skipCheck")) >>>
                 (fun w => clear clearTimeout (skipUpdateTimeout w) w) >>>
                 schedule setInterval true 1000 poll_shouldShowWindow
                   (fun id => set_windowShowInterval (Some id)))
                  (createMainWindow w)).
  { unfold skipUpdateCheck, then_ at 1, with_splash. now rewrite Hsp, Hs. }
  rewrite E, H1, H2, H3, H4, H5, H6.
  unfold kept_timers, poll_timer. rewrite Hsk, Hti, Hnx, Hnow.
  repeat split; assumption.
Qed.

Lemma ready_resolved (u : unit) (w : World) :
  log (ready (resolved u) w) = log w ++ stamp (now w) (ready_calls w)
  /\ now (ready (resolved u) w) = now w
  /\ shouldShowWindow (ready (resolved u) w) = shouldShowWindow w
  /\ ready_emitted (ready (resolved u) w) = ready_emitted w
  /\ mainWindow (ready (resolved u) w) = object (fresh_window main_options)
  /\ next_timer (ready (resolved u) w) = S (next_timer w)
  /\ timers (ready (resolved u) w) = kept_timers w ++ [poll_timer w].
Proof.
  unfold ready, localize_then, then_.
  destruct (skipUpdateCheck_state (fresh_window splash_options)
              (createSplashWindow (call i18n_init w)) eq_refl)
    as (H0 & H1 & H2 & H3 & H4 & H5 & H6).
  rewrite H0, H1, H2, H3, H4, H5, H6.
  split; [| repeat split; reflexivity].
  destruct (createSplashWindow_logs (call i18n_init w)) as [-> _].
  rewrite log_call. unfold ready_calls, stamp.
  cbn [now call record set_log createSplashWindow].
  rewrite !map_app, <- !app_assoc. reflexivity.
Qed.

Lemma ready_rejected (w : World) : ready rejected w = call i18n_init w.
Proof. reflexivity. Qed.

Lemma windows_created_ready_calls (k : Win) (w : World) :
  length (windows_created k (ready_calls w)) = 1.
Proof.
  unfold ready_calls, skipUpdateCheck_calls.
  destruct k, __prod__, isMac, isLinux, (skipUpdateTimeout w); reflexivity.
Qed.

(** One run of the ['ready'] listener creates at most one window of each
    kind. *)
Lemma ready_budget (k : Win) (i18n : Settled unit) (w : World) :
  created k (log (ready i18n w)) <= created k (log w) + 1
  /\ ready_emitted (ready i18n w) = ready_emitted w
  /\ (is_null (mainWindow w) = false ->
      is_null (mainWindow (ready i18n w)) = false).
Proof.
  destruct i18n as [u |].
  - destruct (ready_resolved u w) as (Hl & _ & _ & Hr & Hm & _).
    rewrite Hl, Hr, Hm, created_app, created_stamp,
      windows_created_ready_calls.
    split; [lia | split; reflexivity].
  - rewrite ready_rejected. rewrite created_call by reflexivity.
    split; [lia | split; [reflexivity | trivial]].
Qed.

Lemma run_ready_budget (k : Win) (i18n : Settled unit) (ls : list Listener) :
  forall w,
    is_null (mainWindow w) = false ->
    created k (log (run_listeners ls (app_ready i18n) w))
      <= created k (log w) + length (filter (fun l => l = on_ready) ls)
    /\ ready_emitted (run_listeners ls (app_ready i18n) w) = ready_emitted w
    /\ is_null (mainWindow (run_listeners ls (app_ready i18n) w)) = false.
Proof.
  induction ls as [| l ls IH]; intros w Hn.
  - cbn. unfold skip. repeat split; [lia | exact Hn].
  - cbn [run_listeners].
    destruct (decide (l = on_ready)) as [-> | Hne].
    + cbn [listener_body]. unfold then_.
      destruct (ready_budget k i18n w) as (Hc & Hr & Hm).
      destruct (IH (ready i18n w) (Hm Hn)) as (Hc' & Hr' & Hm').
      rewrite filter_cons_True by reflexivity. cbn [length].
      repeat split; [lia | congruence | exact Hm'].
    + rewrite filter_cons_False by exact Hne.
      assert (E : listener_body l (app_ready i18n) = None)
        by (destruct l; try reflexivity; congruence).
      rewrite E. now apply IH.
Qed.

Lemma filter_filter_length (ls : list Listener) (x y : Listener) :
  length (filter (fun l => l = x) (filter (fun l => l <> y) ls))
  <= length (filter (fun l => l = x) ls).
Proof.
  induction ls as [| l ls IH]; [reflexivity |].
  destruct (decide (l = y)) as [-> | Hy].
  - rewrite (filter_cons_False (fun l => l <> y)) by tauto.
    destruct (decide (y = x)) as [-> | Hx].
    + rewrite (filter_cons_True (fun l => l = x)) by reflexivity. cbn. lia.
    + now rewrite (filter_cons_False (fun l => l = x)) by exact Hx.
  - rewrite (filter_cons_True (fun l => l <> y)) by exact Hy.
    destruct (decide (l = x)) as [-> | Hx].
    + rewrite !(filter_cons_True (fun l => l = x)) by reflexivity. cbn. lia.
    + now rewrite !(filter_cons_False (fun l => l = x)) by exact Hx.
Qed.

(** The window budget is an invariant of the event loop. *)
Lemma step_within_budget (n : nat) (ev : Event) (w w' : World) :
  within_budget n w -> step ev w = Some w' -> within_budget n w'.
Proof.
  intros Hw Hs.
  destruct (ordinary ev) eqn:Ho.
  { apply (within_budget_view n w w'); [| exact Hw].
    apply tame_budget_view. now apply (step_ordinary_tame ev). }
  destruct Hw as [Hm Hsp Hn].
  destruct ev; try discriminate Ho; cbn [step] in Hs.
  - (* ready *)
    destruct (ready_emitted w) eqn:Hr; [discriminate |].
    injection Hs as <-. unfold emit, then_.
    set (w0 := record (emitted (event_name (app_ready i18n)))
                 (set_ready_emitted true w)).
    assert (Hn0 : is_null (mainWindow w0) = false) by exact Hn.
    unfold pending_ready in Hm, Hsp. rewrite Hr in Hm, Hsp.
    destruct (run_ready_budget Main i18n (listeners w0) w0 Hn0)
      as (Hc1 & Hr1 & Hm1).
    destruct (run_ready_budget Splash i18n (listeners w0) w0 Hn0)
      as (Hc2 & _ & _).
    assert (Hk : forall k, created k (log w0) = created k (log w)).
    { intros k. unfold w0, record. cbn [log set_log set_ready_emitted now].
      rewrite created_app. cbn. lia. }
    rewrite Hk in Hc1, Hc2.
    constructor; unfold pending_ready; rewrite ?Hr1; cbn [w0 ready_emitted record set_log set_ready_emitted];
      try exact Hm1;
      change (listeners w0) with (listeners w) in *; lia.
  - (* activate *)
    injection Hs as <-. unfold emit, then_.
    apply run_listeners_stable.
    + intros l c Hb x Hx.
      destruct l; try discriminate Hb. injection Hb as <-.
      unfold activate. now rewrite (wb_not_null n x Hx).
    + apply (within_budget_view n w); [| now constructor].
      now apply tame_budget_view, Tame_record.
  - (* ready-to-show *)
    injection Hs as <-. unfold emit, then_.
    apply run_listeners_stable.
    + intros l c Hb x [Hx1 Hx2 Hx3].
      destruct l; try discriminate Hb. injection Hb as <-.
      unfold then_, unregister. constructor; try assumption;
        unfold pending_ready in *;
        cbn [ready_emitted listeners log set_shouldShowWindow set_listeners];
        destruct (ready_emitted x); try assumption;
        pose proof (filter_filter_length (listeners x) on_ready
                      once_ready_to_show); lia.
    + apply (within_budget_view n w); [| now constructor].
      now apply tame_budget_view, Tame_record.
  - (* a timer fires *)
    destruct (find_timer id w) as [t |]; [| discriminate].
    destruct (due t <=? now w)%N; [| discriminate].
    injection Hs as <-.
    destruct (view_fire t w) as (H1 & H2 & H3 & H4 & H5).
    constructor; unfold pending_ready; rewrite ?H1, ?H2, ?H3, ?H4, ?H5;
      assumption.
  - (* the clock advances *)
    injection Hs as <-. now constructor.
Qed.


(** *** The single-instance gate *)

Lemma boot_calls :
  calls (log boot)
  = [app_requestSingleInstanceLock; i18n_use_Backend;
     electronLogger_level "debug"]
    ++ (if isWin then [app_setAppUserModelId "DogeHouse Reloaded"] else [])
    ++ (if instanceLock then []
        else (if truthy_env hotReload then [app_relaunch] else [])
             ++ [exitApp]).
Proof.
  unfold boot, main.
  destruct isWin, instanceLock, (truthy_env hotReload); reflexivity.
Qed.

Lemma boot_within_budget :
  within_budget (if instanceLock then 1 else 0) boot.
Proof.
  unfold boot, main.
  destruct isWin, instanceLock, (truthy_env hotReload);
    constructor; reflexivity.
Qed.

Lemma run_within_budget (evs : list Event) (w : World) :
  run evs boot = Some w -> within_budget (if instanceLock then 1 else 0) w.
Proof.
  apply (run_invariant (within_budget (if instanceLock then 1 else 0))).
  - intros ev x x'. apply step_within_budget.
  - apply boot_within_budget.
Qed.

Lemma second_instance_calls (w : World) :
  calls_of second_instance w
  = match mainWindow w with
    | object bw =>
        if truthy_env hotReload then [win_close Main]
        else (if minimized bw then [win_restore Main] else [])
             ++ [win_focus Main]
    | _ => []
    end.
Proof.
  destruct w as [mw sp ov fl wi sk ls ti nx nw re lg].
  unfold calls_of, appended, second_instance.
  cbn [mainWindow log].
  destruct mw as [| | bw]; try (now rewrite drop_all).
  destruct (truthy_env hotReload); [| destruct (minimized bw)];
    eval_closure; rewrite <- ?app_assoc, drop_app_length; reflexivity.
Qed.

(** C5. While one instance holds the single-instance lock, a second launch
    creates no second main window.  The process that holds the lock
    creates its main window at most once, whatever events reach it and
    however many of them are ['second-instance']; a process that did not
    get the lock creates none.  The ['second-instance'] listener itself
    never creates a window: with no main window yet it does nothing, in
    hot-reload mode it closes the main window, and otherwise it restores
    the window if it is minimized and then focuses it. *)
Theorem second_launch_creates_no_second_main_window
    (evs : list Event) (w x : World) :
  run evs boot = Some w ->
  created Main (log w) <= (if instanceLock then 1 else 0)
  /\ listener_body on_second_instance app_second_instance
     = Some second_instance
  /\ windows_created Main (calls_of second_instance x) = []
  /\ calls_of second_instance x
     = match mainWindow x with
       | object bw =>
           if truthy_env hotReload then [win_close Main]
           else (if minimized bw then [win_restore Main] else [])
                ++ [win_focus Main]
       | _ => []
       end.
Proof.
  intros Hr. split; [| split; [reflexivity | split]].
  - pose proof (wb_main _ _ (run_within_budget evs w Hr)). lia.
  - rewrite second_instance_calls.
    destruct (mainWindow x) as [| | bw]; try reflexivity.
    destruct (truthy_env hotReload), (minimized bw); reflexivity.
  - apply second_instance_calls.
Qed.

(** C6, as the code has it.  A process that fails to acquire the
    single-instance lock calls [exitApp] as the last call of its start-up
    and creates no window, then or later; it calls [app.relaunch()] just
    before [exitApp] exactly when [process.env.hotReload] is truthy, that
    is, set to a non-empty string. *)
Theorem lock_failure_exits_without_a_window (evs : list Event) (w : World) :
  instanceLock = false ->
  run evs boot = Some w ->
  calls (log boot)
  = [app_requestSingleInstanceLock; i18n_use_Backend;
     electronLogger_level "debug"]
    ++ (if isWin then [app_setAppUserModelId "DogeHouse Reloaded"] else [])
    ++ (if truthy_env hotReload then [app_relaunch] else [])
    ++ [exitApp]
  /\ (truthy_env hotReload = true <->
      exists v, hotReload = Some v /\ v <> "")
  /\ created Main (log w) = 0
  /\ created Splash (log w) = 0.
Proof.
  intros Hl Hr. split; [| split].
  - rewrite boot_calls, Hl. reflexivity.
  - unfold truthy_env. destruct hotReload as [v |].
    + case_bool_decide as Hv; cbn [negb]; split.
      * discriminate.
      * intros (v' & [= <-] & Hne). contradiction.
      * intros _. now exists v.
      * reflexivity.
    + split; [discriminate | intros (v & Hv & _); discriminate].
  - destruct (run_within_budget evs w Hr) as [Hm Hs _].
    rewrite Hl in Hm, Hs. lia.
Qed.


(** *** The hand-off *)

Lemma launched_app (l l' : list (N * Entry)) (t : N) :
  launched l t -> launched (l ++ l') t.
Proof.
  intros (tr & ts & id & l1 & l2 & l3 & -> & H1 & H2 & H3).
  exists tr, ts, id, l1, l2, (l3 ++ l'). repeat split; try assumption.
  - now rewrite <- !app_assoc, <- !app_comm_cons, <- !app_assoc,
      <- !app_comm_cons.
  - apply elem_of_app. now left.
Qed.

Lemma shown_app (l l' : list (N * Entry)) (t : N) :
  shown_after_handoff l t -> shown_after_handoff (l ++ l') t.
Proof.
  intros (ts & l1 & l2 & -> & H1 & H2).
  exists ts, l1, (l2 ++ l'). repeat split; try assumption.
  now rewrite <- !app_assoc, <- !app_comm_cons.
Qed.

Lemma timer_ok_app (l l' : list (N * Entry)) (tm : Timer) :
  timer_ok l tm -> timer_ok (l ++ l') tm.
Proof.
  unfold timer_ok. destruct (body tm).
  - intros (Hp & ts & id & Hin & Hd). split; [exact Hp |].
    exists ts, id. split; [| exact Hd]. apply elem_of_app. now left.
  - intros (Hp & ts & Hl & Hd). split; [exact Hp |].
    exists ts. split; [| exact Hd]. now apply launched_app.
Qed.

Lemma launched_past (l : list (N * Entry)) (t nw : N) :
  Forall (fun e => (e.1 <= nw)%N) l -> launched l t -> (t <= nw)%N.
Proof.
  intros Hf (tr & ts & id & l1 & l2 & l3 & -> & _).
  rewrite Forall_forall in Hf.
  apply (Hf (t, called (webContents_send Splash "launch"))).
  apply elem_of_app. right. apply elem_of_cons. right.
  apply elem_of_app. right. apply elem_of_cons. now left.
Qed.

(** A timer filed again one second from now is still accounted for. *)
Lemma timer_ok_retimed (l : list (N * Entry)) (id : nat) (nw : N)
    (tm : Timer) :
  Forall (fun e => (e.1 <= nw)%N) l ->
  timer_ok l tm -> timer_ok l (retimed id (nw + 1000)%N tm).
Proof.
  intros Hf. unfold retimed. case_bool_decide; [| trivial].
  unfold timer_ok. cbn [body period due]. destruct (body tm).
  - intros (Hp & ts & i & Hin & Hd). split; [exact Hp |].
    exists ts, i. split; [exact Hin |].
    rewrite Forall_forall in Hf. pose proof (Hf _ Hin) as Hle.
    cbn in Hle. lia.
  - intros (Hp & ts & Hl & Hd). split; [exact Hp |].
    exists ts. split; [exact Hl |].
    pose proof (launched_past l ts nw Hf Hl). lia.
Qed.

Lemma past_at_time (nw : N) (l : list Entry) :
  Forall (fun e : N * Entry => (e.1 <= nw)%N) (at_time nw l).
Proof.
  unfold at_time. rewrite Forall_forall. intros e He.
  apply list_elem_of_fmap in He as (x & -> & _). cbn. lia.
Qed.

(** How the invariant passes from [w] to a world whose log has grown by
    the entries [l], made at the instant of [w]. *)
Lemma handoff_inv_core (w w' : World) (l : list Entry) :
  handoff_inv w ->
  now w' = now w ->
  log w' = log w ++ at_time (now w) l ->
  (shouldShowWindow w' = true ->
   exists t, (t, emitted "ready-to-show") ∈ log w') ->
  (forall tm, tm ∈ timers w' -> timer_ok (log w') tm) ->
  (called (win_show Main) ∈ l -> shown_after_handoff (log w') (now w)) ->
  handoff_inv w'.
Proof.
  intros [Hp Hf Ht Hs] Hn Hl Hf' Ht' Hs'.
  constructor; try assumption.
  - rewrite Hl, Hn. apply Forall_app. split; [exact Hp | apply past_at_time].
  - intros t Hin. rewrite Hl in Hin. apply elem_of_app in Hin as [Hin | Hin].
    + rewrite Hl. apply shown_app. now apply Hs.
    + unfold at_time in Hin.
      apply list_elem_of_fmap in Hin as (e & Heq & He).
      injection Heq as -> <-. now apply Hs'.
Qed.

Lemma quiet_not_show (l : list Entry) :
  forallb quiet l = true -> called (win_show Main) ∉ l.
Proof.
  intros Hq Hin. rewrite forallb_forall in Hq.
  apply list_elem_of_In in Hin. now specialize (Hq _ Hin).
Qed.

(** Growing the log without showing the main window, and touching neither
    the timers nor the flag, keeps the invariant. *)
Lemma handoff_inv_grow (w w' : World) (l : list Entry) :
  handoff_inv w ->
  now w' = now w ->
  timers w' = timers w ->
  shouldShowWindow w' = shouldShowWindow w ->
  log w' = log w ++ at_time (now w) l ->
  called (win_show Main) ∉ l ->
  handoff_inv w'.
Proof.
  intros Hw Hn Ht Hf Hl Hq.
  apply (handoff_inv_core w w' l Hw Hn Hl).
  - rewrite Hf. intros Htrue.
    destruct (hi_flag w Hw Htrue) as [t Hin]. exists t.
    rewrite Hl. apply elem_of_app. now left.
  - rewrite Ht, Hl. intros tm Hin. apply timer_ok_app.
    now apply (hi_timers w Hw).
  - intros Hin. contradiction.
Qed.

Lemma handoff_inv_tame (w w' : World) :
  tame w w' -> handoff_inv w -> handoff_inv w'.
Proof.
  intros [Hn Ht _ Hf _ _ _ (l & Hl & Hq)] Hw.
  apply (handoff_inv_grow w w' l); try assumption.
  now apply quiet_not_show.
Qed.


Lemma stamp_at_time (t : N) (l : list Call) :
  stamp t l = at_time t (map called l).
Proof. unfold stamp, at_time. now rewrite map_map. Qed.

Lemma called_in_map (c : Call) (l : list Call) :
  called c ∈ map called l -> c ∈ l.
Proof.
  intros H. apply list_elem_of_fmap in H as (x & [= ->] & Hx). exact Hx.
Qed.

Lemma in_stamp (t : N) (c : Call) (l : list Call) :
  c ∈ l -> (t, called c) ∈ stamp t l.
Proof.
  intros H. unfold stamp. apply list_elem_of_fmap. now exists c.
Qed.

Lemma clock_handoff (ms : N) (w : World) :
  handoff_inv w -> handoff_inv (set_now (now w + ms)%N w).
Proof.
  intros [Hp Hf Ht Hs]. constructor; try assumption.
  cbn [now log set_now]. eapply Forall_impl; [exact Hp |].
  cbn. intros e He. lia.
Qed.

Lemma refile_handoff (id : nat) (w : World) :
  handoff_inv w -> handoff_inv (refile id 1000 w).
Proof.
  intros Hw.
  apply (handoff_inv_core w (refile id 1000 w) []); try assumption;
    try reflexivity.
  - cbn. now rewrite app_nil_r.
  - exact (hi_flag w Hw).
  - intros tm' Hin. unfold refile in Hin. cbn [timers set_timers log] in *.
    apply list_elem_of_fmap in Hin as (tm & -> & Hin).
    apply (timer_ok_retimed (log w) id (now w) tm (hi_past w Hw)).
    now apply (hi_timers w Hw).
  - intros Hin. now apply elem_of_nil in Hin.
Qed.

Lemma drop_timer_handoff (id : nat) (w : World) :
  handoff_inv w -> handoff_inv (drop_timer id w).
Proof.
  intros [Hp Hf Ht Hs]. constructor; try assumption.
  intros tm Hin. unfold drop_timer in Hin. cbn [timers set_timers] in Hin.
  apply list_elem_of_filter in Hin as [_ Hin]. now apply Ht.
Qed.

(** What the polling callback does once the flag is set. *)
Lemma poll_state (s : BrowserWindow) (w : World) :
  shouldShowWindow w = true ->
  splash w = object s ->
  log (poll w)
  = log w ++ at_time (now w)
      ([called (webContents_send Splash "launch")]
       ++ match windowShowInterval w with
          | Some id => [called (clearInterval id)]
          | None => []
          end
       ++ [called (setTimeout (next_timer w) 800)])
  /\ now (poll w) = now w
  /\ shouldShowWindow (poll w) = true
  /\ timers (poll w) = unpolled_timers w ++ [show_timer w].
Proof.
  destruct w as [mw sp ov fl wi sk ls ti nx nw re lg].
  cbn [shouldShowWindow splash]. intros -> ->.
  unfold poll, unpolled_timers, show_timer.
  destruct wi; eval_closure; rewrite <- ?app_assoc;
    repeat split; reflexivity.
Qed.

Lemma poll_handoff (w : World) :
  handoff_inv w ->
  (exists t_set id,
     (t_set, called (setInterval id 1000)) ∈ log w
     /\ (t_set + 1000 <= now w)%N) ->
  handoff_inv (poll w).
Proof.
  intros Hw (t_set & id & Hset & Hdue).
  destruct (shouldShowWindow w) eqn:Hflag;
    [| unfold poll; now rewrite Hflag].
  destruct (splash w) as [| | s] eqn:Hs;
    try (apply (handoff_inv_tame w); [| exact Hw];
         unfold poll, with_splash; rewrite Hflag, Hs;
         now apply Tame_call).
  destruct (poll_state s w Hflag Hs) as (Hl & Hn & Hf & Ht).
  eapply (handoff_inv_core w (poll w)); try eassumption.
  - intros _. destruct (hi_flag w Hw Hflag) as [t Hin]. exists t.
    rewrite Hl. apply elem_of_app. now left.
  - rewrite Ht, Hl. intros tm [Hin | Hin]%elem_of_app.
    + apply timer_ok_app. apply (hi_timers w Hw).
      unfold unpolled_timers in Hin.
      destruct (windowShowInterval w); [| exact Hin].
      now apply list_elem_of_filter in Hin as [_ Hin].
    + apply list_elem_of_singleton in Hin as ->.
      unfold timer_ok. cbn [body show_timer period due].
      split; [reflexivity |]. exists (now w). split; [| lia].
      destruct (hi_flag w Hw Hflag) as [t_ready Hin].
      pose proof (hi_past w Hw) as Hp. rewrite Forall_forall in Hp.
      pose proof (Hp _ Hin) as Hle. cbn in Hle.
      apply list_elem_of_split in Hin as (l1 & l2 & Hsplit).
      exists t_ready, t_set, id, l1, l2.
      eexists. repeat split; [| exact Hle | | exact Hdue].
      * rewrite Hsplit. cbn [at_time map app].
        rewrite <- app_assoc, <- app_comm_cons. reflexivity.
      * apply elem_of_app. now left.
  - intros Hin. exfalso.
    apply elem_of_cons in Hin as [Hin | Hin]; [discriminate |].
    apply elem_of_app in Hin as [Hin | Hin].
    + destruct (windowShowInterval w);
        [apply list_elem_of_singleton in Hin; discriminate
        | now apply elem_of_nil in Hin].
    + apply list_elem_of_singleton in Hin. discriminate.
Qed.

(** What the delayed callback does. *)
Lemma show_main_cases (w : World) :
  exists l,
    log (show_main w) = log w ++ at_time (now w) l
    /\ now (show_main w) = now w
    /\ shouldShowWindow (show_main w) = shouldShowWindow w
    /\ timers (show_main w) = timers w
    /\ (l = [called (win_destroy Splash); called (win_show Main)]
        \/ called (win_show Main) ∉ l).
Proof.
  destruct w as [mw sp ov fl wi sk ls ti nx nw re lg].
  unfold show_main.
  destruct sp as [| | s]; [| | destruct mw as [| | m]]; eval_closure.
  1, 2: exists [called throw_TypeError].
  3, 4: exists [called (win_destroy Splash); called throw_TypeError].
  5: exists [called (win_destroy Splash); called (win_show Main)].
  all: rewrite <- ?app_assoc; repeat split; try reflexivity.
  all: try (now left).
  all: right; intros Hin;
    repeat (apply elem_of_cons in Hin as [Hin | Hin]; [discriminate |]);
    now apply elem_of_nil in Hin.
Qed.

Lemma show_main_handoff (w : World) :
  handoff_inv w ->
  (exists t_seen, launched (log w) t_seen /\ (t_seen + 800 <= now w)%N) ->
  handoff_inv (show_main w).
Proof.
  intros Hw (t_seen & Hlaunched & Hdue).
  destruct (show_main_cases w) as (l & Hl & Hn & Hf & Ht & [-> | Hq]).
  - apply (handoff_inv_core w (show_main w) _ Hw Hn Hl).
    + rewrite Hf. intros Htrue.
      destruct (hi_flag w Hw Htrue) as [t Hin]. exists t.
      rewrite Hl. apply elem_of_app. now left.
    + rewrite Ht, Hl. intros tm Hin. apply timer_ok_app.
      now apply (hi_timers w Hw).
    + intros _. rewrite Hl. exists t_seen, (log w), []. now repeat split.
  - now apply (handoff_inv_grow w (show_main w) l).
Qed.

Lemma find_timer_elem (id : nat) (w : World) (t : Timer) :
  find_timer id w = Some t -> t ∈ timers w.
Proof.
  unfold find_timer. intros H. apply find_some in H as [H _].
  now apply list_elem_of_In.
Qed.

Lemma fire_handoff (t : Timer) (w : World) :
  t ∈ timers w -> (due t <= now w)%N ->
  handoff_inv w -> handoff_inv (fire t w).
Proof.
  intros Hin Hdue Hw.
  pose proof (hi_timers w Hw t Hin) as Hok.
  unfold timer_ok in Hok. unfold fire.
  destruct (body t); cbn [timer_body].
  - destruct Hok as (-> & t_set & id & Hset & Hle).
    unfold then_. apply refile_handoff. apply poll_handoff; [exact Hw |].
    exists t_set, id. split; [exact Hset | lia].
  - destruct Hok as (-> & t_seen & Hl & Hle).
    unfold then_. apply show_main_handoff.
    + now apply drop_timer_handoff.
    + exists t_seen. split; [exact Hl |]. cbn. lia.
Qed.


Lemma no_shows_main (l : list Call) :
  forallb (fun c => negb (shows_main c)) l = true -> win_show Main ∉ l.
Proof.
  intros H Hin. rewrite forallb_forall in H.
  apply list_elem_of_In in Hin. now specialize (H _ Hin).
Qed.

Lemma ready_calls_no_show (w : World) : win_show Main ∉ ready_calls w.
Proof.
  apply no_shows_main. unfold ready_calls, skipUpdateCheck_calls.
  destruct __prod__, isMac, isLinux, (skipUpdateTimeout w); reflexivity.
Qed.

Lemma ready_calls_setInterval (w : World) :
  setInterval (next_timer w) 1000 ∈ ready_calls w.
Proof.
  unfold ready_calls, skipUpdateCheck_calls.
  do 5 (apply elem_of_app; right). now apply list_elem_of_singleton.
Qed.

Lemma ready_handoff (i18n : Settled unit) (w : World) :
  handoff_inv w -> handoff_inv (ready i18n w).
Proof.
  intros Hw. destruct i18n as [u |].
  2: { apply (handoff_inv_tame w); [| exact Hw].
       rewrite ready_rejected. now apply Tame_call. }
  destruct (ready_resolved u w) as (Hl & Hn & Hf & _ & _ & _ & Ht).
  rewrite stamp_at_time in Hl.
  apply (handoff_inv_core w _ _ Hw Hn Hl).
  - rewrite Hf. intros Htrue.
    destruct (hi_flag w Hw Htrue) as [t Hin]. exists t.
    rewrite Hl. apply elem_of_app. now left.
  - rewrite Ht, Hl. intros tm [Hin | Hin]%elem_of_app.
    + apply timer_ok_app. apply (hi_timers w Hw).
      unfold kept_timers in Hin.
      destruct (skipUpdateTimeout w); [| exact Hin].
      now apply list_elem_of_filter in Hin as [_ Hin].
    + apply list_elem_of_singleton in Hin as ->.
      unfold timer_ok. cbn [body poll_timer period due].
      split; [reflexivity |].
      exists (now w), (next_timer w). split; [| lia].
      apply elem_of_app. right. rewrite <- stamp_at_time.
      apply in_stamp, ready_calls_setInterval.
  - intros Hin. apply called_in_map in Hin.
    now apply ready_calls_no_show in Hin.
Qed.

Lemma createMainWindow_no_show (w : World) (l : list Call) :
  Logs createMainWindow l -> win_show Main ∉ l.
Proof.
  intros H. pose proof (Logs_calls_of _ _ w H) as E.
  rewrite (Logs_calls_of _ _ w createMainWindow_logs) in E. subst l.
  apply no_shows_main. now destruct __prod__, isMac.
Qed.

Lemma activate_handoff (i18n : Settled unit) (w : World) :
  handoff_inv w -> handoff_inv (activate i18n w).
Proof.
  intros Hw. unfold activate.
  destruct (is_null (mainWindow w)); [| exact Hw].
  unfold localize_then. destruct i18n as [u |].
  2: { apply (handoff_inv_tame w); [| exact Hw].
       apply Tame_then; [now apply Tame_call | apply Tame_skip]. }
  unfold then_.
  destruct (createMainWindow_logs (call i18n_init w)) as [Hl Hn].
  destruct (createMainWindow_frame (call i18n_init w))
    as (_ & _ & _ & Ht & _ & Hf & _).
  rewrite log_call in Hl. cbn [now call record set_log] in Hl, Hn.
  rewrite stamp_at_time, <- app_assoc in Hl.
  change ([(now w, called i18n_init)] ++ at_time (now w) ?x)
    with (at_time (now w) (called i18n_init :: x)) in Hl.
  eapply (handoff_inv_grow w _ _ Hw Hn Ht Hf Hl).
  intros Hin. apply elem_of_cons in Hin as [Hin | Hin]; [discriminate |].
  apply called_in_map in Hin.
  now apply (createMainWindow_no_show w _ createMainWindow_logs) in Hin.
Qed.

Lemma ready_to_show_handoff (w : World) :
  handoff_inv w -> handoff_inv (emit main_ready_to_show w).
Proof.
  intros Hw. unfold emit, then_.
  set (w0 := record (emitted (event_name main_ready_to_show)) w).
  assert (H0 : handoff_inv w0
               /\ exists t, (t, emitted "ready-to-show") ∈ log w0).
  { split.
    - apply (handoff_inv_tame w); [| exact Hw]. now apply Tame_record.
    - exists (now w). unfold w0, record. cbn [log set_log event_name].
      apply elem_of_app. right. now apply list_elem_of_singleton. }
  change (listeners w0) with (listeners w).
  apply (run_listeners_stable
           (fun x => handoff_inv x
                     /\ exists t, (t, emitted "ready-to-show") ∈ log x)
           (listeners w) main_ready_to_show); [| exact H0].
  intros l c Hb x [Hx Hex].
  destruct l; try discriminate Hb. injection Hb as <-.
  split; [| exact Hex].
  apply (handoff_inv_core x _ [] Hx); try reflexivity.
  - cbn. now rewrite app_nil_r.
  - intros _. exact Hex.
  - exact (hi_timers x Hx).
  - intros Hin. now apply elem_of_nil in Hin.
Qed.

(** The hand-off invariant is an invariant of the event loop. *)
Lemma step_handoff_inv (ev : Event) (w w' : World) :
  handoff_inv w -> step ev w = Some w' -> handoff_inv w'.
Proof.
  intros Hw Hs.
  destruct (ordinary ev) eqn:Ho.
  { apply (handoff_inv_tame w w'); [| exact Hw].
    now apply (step_ordinary_tame ev). }
  destruct ev; try discriminate Ho; cbn [step] in Hs.
  - destruct (ready_emitted w); [discriminate |].
    injection Hs as <-. unfold emit, then_.
    apply run_listeners_stable.
    + intros l c Hb x Hx. destruct l; try discriminate Hb.
      injection Hb as <-. now apply ready_handoff.
    + apply (handoff_inv_tame (set_ready_emitted true w)).
      * now apply Tame_record.
      * destruct Hw. now constructor.
  - injection Hs as <-. unfold emit, then_.
    apply run_listeners_stable.
    + intros l c Hb x Hx. destruct l; try discriminate Hb.
      injection Hb as <-. now apply activate_handoff.
    + apply (handoff_inv_tame w); [| exact Hw]. now apply Tame_record.
  - injection Hs as <-. now apply ready_to_show_handoff.
  - destruct (find_timer id w) as [t |] eqn:Hfind; [| discriminate].
    destruct (due t <=? now w)%N eqn:Hdue; [| discriminate].
    injection Hs as <-. apply fire_handoff; try assumption.
    + now apply (find_timer_elem id).
    + now apply N.leb_le.
  - injection Hs as <-. now apply clock_handoff.
Qed.

Lemma called_in_calls (t : N) (c : Call) (l : list (N * Entry)) :
  (t, called c) ∈ l -> c ∈ calls l.
Proof.
  intros H. unfold calls. apply list_elem_of_omap.
  exists (t, called c). now split.
Qed.

Lemma boot_handoff_inv : handoff_inv boot.
Proof.
  constructor.
  - unfold boot, main.
    destruct isWin, instanceLock, (truthy_env hotReload);
      repeat constructor; vm_compute; discriminate.
  - unfold boot, main.
    destruct isWin, instanceLock, (truthy_env hotReload); discriminate.
  - unfold boot, main.
    destruct isWin, instanceLock, (truthy_env hotReload);
      intros tm Hin; now apply elem_of_nil in Hin.
  - intros t Hin. exfalso. apply called_in_calls in Hin.
    rewrite boot_calls in Hin.
    destruct isWin, instanceLock, (truthy_env hotReload); cbn [app] in Hin;
      repeat (apply elem_of_cons in Hin as [Hin | Hin]; [discriminate |]);
      now apply elem_of_nil in Hin.
Qed.

(** The main window is created hidden. *)
Fact main_window_is_created_hidden : show main_options = Some false.
Proof. reflexivity. Qed.

(** The script's own call of [show()] is gated.  In every run of the
    application, whenever [mainWindow.show()] is called, the log up to
    that instant [t] reads, in this order: the main
    window reported ['ready-to-show'] (which sets [shouldShowWindow]); the
    polling callback, at an instant [t_seen] no earlier than that report
    and at least 1000 ms after [setInterval] set the polling up, saw the
    flag and sent ["launch"] to the splash window; and at [t], at least
    800 ms after [t_seen], the splash window was destroyed and, as the
    very next call, the main window shown. *)
Theorem main_window_shown_only_after_ready_and_delay
    (evs : list Event) (w : World) (t : N) :
  run evs boot = Some w ->
  (t, called (win_show Main)) ∈ log w ->
  exists (t_ready t_set t_seen : N) (id : nat)
         (l1 l2 l3 l4 : list (N * Entry)),
    log w = l1 ++ (t_ready, emitted "ready-to-show")
               :: l2 ++ (t_seen, called (webContents_send Splash "launch"))
               :: l3 ++ (t, called (win_destroy Splash))
               :: (t, called (win_show Main)) :: l4
    /\ (t_ready <= t_seen)%N
    /\ (t_seen + 800 <= t)%N
    /\ (t_set, called (setInterval id 1000)) ∈ log w
    /\ (t_set + 1000 <= t_seen)%N.
Proof.
  intros Hr Hin.
  assert (Hw : handoff_inv w).
  { apply (run_invariant handoff_inv step_handoff_inv evs boot w);
      [apply boot_handoff_inv | exact Hr]. }
  destruct (hi_shown w Hw t Hin)
    as (t_seen & k1 & k2 & Hl
        & (t_ready & t_set & id & l1 & l2 & l3 & -> & H1 & H2 & H3) & H4).
  exists t_ready, t_set, t_seen, id, l1, l2, l3, k2.
  repeat split; try assumption.
  - rewrite Hl. now rewrite <- !app_assoc, <- !app_comm_cons, <- !app_assoc,
      <- !app_comm_cons.
  - rewrite Hl. apply elem_of_app. now left.
Qed.


(** *** More on the handler of links *)

(** X1. Whatever the URL, the allow-list and the state, the handler of
    links does one of three things and nothing else: it throws (exactly
    when the URL does not parse), it leaves the navigation alone, or it
    calls [event.preventDefault()] followed by [shell.openExternal] on the
    very URL it was given.  So it never prevents a navigation without
    opening it externally, and never opens another URL. *)
Theorem handleLinks_has_three_outcomes (url : string) (w : World) :
  (new_URL url = None /\ handleLinks url w = call throw_TypeError w
   /\ calls_of (handleLinks url) w = [throw_TypeError])
  \/ (new_URL url <> None /\ handleLinks url w = w
      /\ calls_of (handleLinks url) w = [])
  \/ (new_URL url <> None /\ handleLinks url w = redirected url w
      /\ calls_of (handleLinks url) w
         = [event_preventDefault; shell_openExternal url]).
Proof.
  unfold handleLinks. destruct (new_URL url) as [urlObj |] eqn:Hp.
  - right. cbn zeta.
    destruct (negb (includes ALLOWED_HOSTS (hostname urlObj))).
    + right. split; [discriminate |].
      pose proof (redirect_spec url w) as H.
      split; [exact H | now apply calls_of_redirected].
    + match goal with
      | |- context [if ?b then _ else _] => destruct b
      end.
      * right. split; [discriminate |].
        pose proof (redirect_spec url w) as H.
        split; [exact H | now apply calls_of_redirected].
      * left. split; [discriminate |]. split; [reflexivity |].
        apply calls_of_skip.
  - left. split; [reflexivity |]. split; [reflexivity |].
    now apply (calls_of_app _ w [(now w, called throw_TypeError)]).
Qed.

(** X2. A URL on an allow-listed host that sits neither at index 3 nor at
    index 8 of the list stays in the application whatever its path: the
    handler does nothing. *)
Theorem plain_allowed_host_stays_in_app
    (url : string) (urlObj : URL) (w : World) :
  new_URL url = Some urlObj ->
  hostname urlObj ∈ ALLOWED_HOSTS ->
  ALLOWED_HOSTS !! 3 <> Some (hostname urlObj) ->
  ALLOWED_HOSTS !! 8 <> Some (hostname urlObj) ->
  handleLinks url w = w /\ calls_of (handleLinks url) w = [].
Proof.
  intros Hp Hin H3 H8.
  assert (E : handleLinks url w = w).
  { unfold handleLinks. rewrite Hp. cbn zeta.
    unfold includes, eq_at.
    rewrite (bool_decide_eq_true_2 _ Hin),
      (bool_decide_eq_false_2 _ H3), (bool_decide_eq_false_2 _ H8).
    reflexivity. }
  split; [exact E |].
  apply (calls_of_app _ w []). rewrite E. now rewrite app_nil_r.
Qed.

(** X3. The two path lists do not combine: when one and the same host
    sits at index 3 and at index 8 of the allow-list, every path on it is
    redirected, the login pages included, because a path that passes the
    test of one index fails the test of the other. *)
Theorem host_at_both_indices_is_always_redirected
    (url : string) (urlObj : URL) (w : World) :
  new_URL url = Some urlObj ->
  ALLOWED_HOSTS !! 3 = Some (hostname urlObj) ->
  ALLOWED_HOSTS !! 8 = Some (hostname urlObj) ->
  handleLinks url w = redirected url w
  /\ calls_of (handleLinks url) w
     = [event_preventDefault; shell_openExternal url].
Proof.
  intros Hp H3 H8.
  assert (E : handleLinks url w = redirected url w).
  { unfold handleLinks. rewrite Hp. cbn zeta.
    assert (Hin : hostname urlObj ∈ ALLOWED_HOSTS)
      by (apply list_elem_of_lookup; eauto).
    unfold includes, eq_at, strict_ne.
    rewrite (bool_decide_eq_true_2 _ Hin),
      (bool_decide_eq_true_2 _ H3), (bool_decide_eq_true_2 _ H8).
    cbn [negb andb].
    repeat case_bool_decide; cbn [negb andb orb];
      try apply redirect_spec; congruence. }
  split; [exact E | now apply calls_of_redirected].
Qed.

(** *** The window-control channels *)

(** X4. The ['@app/minimize'] message minimizes the main window only when
    the window is minimizable; otherwise it changes nothing. *)
Theorem app_minimize_is_guarded (bw : BrowserWindow) (w : World) :
  mainWindow w = object bw ->
  listener_body on_app_minimize ipc_app_minimize = Some app_minimize
  /\ (minimizable bw = true ->
      calls_of app_minimize w = [win_minimize Main]
      /\ mainWindow (app_minimize w) = object (set_minimized true bw))
  /\ (minimizable bw = false -> app_minimize w = w).
Proof.
  intros Hm. split; [reflexivity |]. split; intros Hc.
  - split.
    + erewrite calls_of_app;
        [| unfold app_minimize, with_main; rewrite Hm, Hc;
           run_closure; rewrite Hm; reflexivity ].
      reflexivity.
    + unfold app_minimize, with_main. rewrite Hm, Hc.
      run_closure. now rewrite Hm.
  - unfold app_minimize, with_main. now rewrite Hm, Hc.
Qed.

(** X5. When the main window has closed, the listener first unregisters
    every global shortcut, then destroys the overlay window if one is set,
    and only then destroys the main window. *)
Theorem closed_releases_shortcuts_then_windows (bw : BrowserWindow) (w : World) :
  mainWindow w = object bw ->
  listener_body on_closed main_closed = Some closed
  /\ calls_of closed w
     = [globalShortcut_unregisterAll]
       ++ (if overlay w then [overlay_destroy] else [])
       ++ [win_destroy Main].
Proof.
  intros Hm. split; [reflexivity |].
  destruct w as [mw sp ov fl wi sk ls ti nx nw re lg].
  cbn [mainWindow] in Hm. subst mw.
  unfold calls_of, appended, closed. cbn [overlay log].
  destruct ov; eval_closure; rewrite <- ?app_assoc, drop_app_length;
    reflexivity.
Qed.

(** X6. The ['@dogehouse/loaded'] message maximizes the main window on
    macOS and does nothing at all on the other platforms. *)
Theorem loaded_maximizes_on_mac_only (bw : BrowserWindow) (w : World) :
  mainWindow w = object bw ->
  exists c : Cmd,
    listener_body on_dogehouse_loaded ipc_dogehouse_loaded = Some c
    /\ (isMac = true ->
        calls_of c w = [win_maximize Main]
        /\ mainWindow (c w) = object (set_maximized true bw))
    /\ (isMac = false -> c w = w).
Proof.
  intros Hm. eexists. split; [reflexivity |]. split; intros ->.
  - split.
    + erewrite calls_of_app;
        [| unfold when, with_main; rewrite Hm;
           run_closure; rewrite Hm; reflexivity ].
      reflexivity.
    + unfold when, with_main. rewrite Hm. run_closure. now rewrite Hm.
  - reflexivity.
Qed.


(** *** Listeners that leave the script's state alone *)

Lemma same_window_refl (s : Slot BrowserWindow) : same_window s s.
Proof. destruct s; cbn; auto. Qed.

Lemma same_window_trans (s1 s2 s3 : Slot BrowserWindow) :
  same_window s1 s2 -> same_window s2 s3 -> same_window s1 s3.
Proof.
  destruct s1, s2, s3; cbn; try tauto.
  intros (? & ? & ? & ?) (? & ? & ? & ?). repeat split; congruence.
Qed.

Lemma steady_refl (w : World) : steady w w.
Proof.
  constructor; [| apply same_window_refl].
  exists []. split; [| reflexivity].
  destruct w. cbn. now rewrite app_nil_r.
Qed.

Lemma steady_trans (w1 w2 w3 : World) :
  steady w1 w2 -> steady w2 w3 -> steady w1 w3.
Proof.
  intros [(a & Ha & Pa) Wa] [(b & Hb & Pb) Wb].
  constructor; [| exact (same_window_trans _ _ _ Wa Wb)].
  exists (a ++ b). split; [| rewrite forallb_app; now rewrite Pa, Pb].
  rewrite Hb. rewrite Ha at 1 2 3. 
  cbn [log now set_log set_mainWindow].
  unfold at_time. rewrite map_app, app_assoc. reflexivity.
Qed.

Lemma Steady_skip : Steady skip.
Proof. intros w. apply steady_refl. Qed.

Lemma Steady_then (c d : Cmd) : Steady c -> Steady d -> Steady (c >>> d).
Proof. intros Hc Hd w. exact (steady_trans _ _ _ (Hc w) (Hd (c w))). Qed.

Lemma Steady_when (b : bool) (c : Cmd) : Steady c -> Steady (when b c).
Proof. destruct b; [trivial | intros _; apply Steady_skip]. Qed.

Lemma Steady_if (b : bool) (c d : Cmd) :
  Steady c -> Steady d -> Steady (if b then c else d).
Proof. now destruct b. Qed.

Lemma Steady_record (e : Entry) : only ordinary_call e = true -> Steady (record e).
Proof.
  intros He w. constructor; [| apply same_window_refl].
  exists [e]. split; [reflexivity |]. cbn. now rewrite He.
Qed.

Lemma Steady_call (x : Call) : ordinary_call x = true -> Steady (call x).
Proof. intros Hx. now apply Steady_record. Qed.

Lemma Steady_main_becomes (f : BrowserWindow -> BrowserWindow) :
  (forall bw, options (f bw) = options bw
              /\ fullScreenable (f bw) = fullScreenable bw
              /\ maximizable (f bw) = maximizable bw
              /\ minimizable (f bw) = minimizable bw) ->
  Steady (main_becomes f).
Proof.
  intros Hf w. unfold main_becomes.
  destruct (mainWindow w) as [| | bw] eqn:Hm; try apply steady_refl.
  constructor.
  - exists []. split; [| reflexivity].
    destruct w. cbn. now rewrite app_nil_r.
  - rewrite Hm. cbn. apply Hf.
Qed.

Lemma Steady_with_main (k : BrowserWindow -> Cmd) :
  (forall bw, Steady (k bw)) -> Steady (with_main k).
Proof.
  intros Hk w. unfold with_main.
  destruct (mainWindow w); try (now apply Steady_call). apply Hk.
Qed.

Lemma Steady_with_splash (k : BrowserWindow -> Cmd) :
  (forall bw, Steady (k bw)) -> Steady (with_splash k).
Proof.
  intros Hk w. unfold with_splash.
  destruct (splash w); try (now apply Steady_call). apply Hk.
Qed.

Create HintDb steady.
#[local] Hint Resolve Steady_skip Steady_then Steady_when Steady_if
  Steady_with_main Steady_with_splash : steady.
#[local] Hint Extern 1 (Steady (call _)) =>
  (apply Steady_call; reflexivity) : steady.
#[local] Hint Extern 1 (Steady (main_becomes _)) =>
  (apply Steady_main_becomes; intros ?; repeat split; reflexivity) : steady.

Lemma Steady_handleLinks (url : string) : Steady (handleLinks url).
Proof.
  unfold handleLinks. destruct (new_URL url); auto 10 with steady.
Qed.

Lemma Steady_request_mic (answer : Settled bool) : Steady (request_mic answer).
Proof. unfold request_mic. destruct answer; auto 10 with steady. Qed.

Lemma Steady_app_maximize : Steady app_maximize.
Proof.
  unfold app_maximize. apply Steady_with_main. intros bw.
  destruct isMac, (maximized bw); auto 10 with steady.
Qed.

Lemma Steady_app_minimize : Steady app_minimize.
Proof. unfold app_minimize. auto 10 with steady. Qed.

Lemma Steady_closed : Steady closed.
Proof.
  unfold closed. apply Steady_then; [auto with steady |].
  apply Steady_then; [| auto 10 with steady].
  intros w. apply Steady_when. auto with steady.
Qed.

Lemma Steady_second_instance : Steady second_instance.
Proof.
  intros w. unfold second_instance.
  destruct (mainWindow w) as [| | bw]; try apply steady_refl.
  destruct (truthy_env hotReload).
  - now apply Steady_call.
  - apply Steady_then; auto 10 with steady.
Qed.

Lemma listener_body_steady (l : Listener) (ev : Event) (c : Cmd) :
  listener_body l ev = Some c ->
  l <> on_ready -> l <> on_activate -> l <> once_ready_to_show ->
  Steady c.
Proof.
  intros H H1 H2 H3.
  destruct l; try congruence; destruct ev; try discriminate H;
    injection H as <-;
    auto using Steady_handleLinks, Steady_request_mic, Steady_app_maximize,
      Steady_app_minimize, Steady_closed, Steady_second_instance;
    auto 10 with steady.
Qed.

Lemma run_listeners_steady (ls : list Listener) (ev : Event) :
  ordinary ev = true -> Steady (run_listeners ls ev).
Proof.
  intros Hev. induction ls as [| l ls IH]; [apply Steady_skip |].
  cbn [run_listeners]. destruct (listener_body l ev) as [c |] eqn:E; [| exact IH].
  apply Steady_then; [| exact IH].
  apply (listener_body_steady l ev c E);
    intros ->; destruct ev; discriminate.
Qed.

Lemma step_ordinary_steady (ev : Event) (w w' : World) :
  ordinary ev = true -> step ev w = Some w' -> steady w w'.
Proof.
  intros Hev Hs.
  destruct ev; try discriminate Hev; cbn [step] in Hs;
    injection Hs as <-;
    try (unfold emit; apply Steady_then;
         [now apply Steady_record
         | intros x; now apply run_listeners_steady]).
  apply Steady_main_becomes. intros bw. repeat split; reflexivity.
Qed.

(** X7. Every listener other than those of ['ready'], ['activate'] and
    ['ready-to-show'] leaves the script's state alone.  When the host
    delivers any event bound to such listeners (an inter-process message,
    a navigation, ['closed'], ['second-instance'], ['window-all-closed'],
    the splash window's ['did-finish-load']), or changes the flags of the
    main window itself, the world afterwards is the world before with a
    longer log and possibly other flags on the same main window: no
    variable of the script is reassigned, no listener is added or removed,
    no timer is set or cleared, and the calls made are window-control,
    navigation and permission calls only, so that no window is created and
    the main window is not shown. *)
Theorem ordinary_events_leave_the_state_alone (ev : Event) (w w' : World) :
  ordinary ev = true ->
  step ev w = Some w' ->
  (exists l : list Entry,
     w' = set_log (log w ++ at_time (now w) l)
            (set_mainWindow (mainWindow w') w)
     /\ forallb (only ordinary_call) l = true)
  /\ same_window (mainWindow w) (mainWindow w')
  /\ splash w' = splash w
  /\ shouldShowWindow w' = shouldShowWindow w
  /\ windowShowInterval w' = windowShowInterval w
  /\ listeners w' = listeners w
  /\ timers w' = timers w.
Proof.
  intros Hev Hs.
  destruct (step_ordinary_steady ev w w' Hev Hs) as [(l & Hl & Hq) Hw].
  split; [now exists l |]. split; [exact Hw |].
  rewrite Hl. repeat split; reflexivity.
Qed.


(** *** The special closures, field by field *)

(** Runs any closure of the script on a world given field by field. *)
Ltac eval_script :=
  cbv beta iota zeta delta
    [ready localize_then createSplashWindow skipUpdateCheck createMainWindow
     poll show_main fire timer_body refile activate
     then_ call record when skip with_main with_splash main_becomes
     register unregister schedule drop_timer clear
     set_log set_mainWindow set_splash set_overlay set_listeners
     set_timers set_windowShowInterval set_shouldShowWindow
     log now mainWindow splash overlay shouldShowWindow
     windowShowInterval skipUpdateTimeout listeners timers next_timer
     ready_emitted negb orb andb].

Lemma ready_resolved_world (u : unit) (w : World) :
  ready (resolved u) w = after_ready w.
Proof.
  destruct w as [mw sp ov fl wi sk ls ti nx nw re lg].
  unfold after_ready, ready_calls, skipUpdateCheck_calls, kept_timers,
    poll_timer, window_listeners, stamp,
    ready, localize_then, createSplashWindow, skipUpdateCheck,
    createMainWindow.
  destruct __prod__, isMac, isLinux, sk; eval_script;
    cbn [map app]; rewrite <- ?app_assoc; reflexivity.
Qed.

Lemma poll_world (s : BrowserWindow) (w : World) :
  shouldShowWindow w = true -> splash w = object s -> poll w = after_poll w.
Proof.
  destruct w as [mw sp ov fl wi sk ls ti nx nw re lg].
  cbn [shouldShowWindow splash]. intros -> ->.
  unfold after_poll, unpolled_timers, show_timer, launch.
  destruct wi; eval_script; cbn [at_time map app];
    rewrite <- ?app_assoc; reflexivity.
Qed.

Lemma poll_idle (w : World) : shouldShowWindow w = false -> poll w = w.
Proof. intros H. unfold poll. now rewrite H. Qed.

Lemma poll_no_splash (w : World) :
  shouldShowWindow w = true ->
  (forall s, splash w <> object s) ->
  poll w = call throw_TypeError w.
Proof.
  intros H Hs. unfold poll, with_splash. rewrite H.
  destruct (splash w) as [| | s]; try reflexivity. now destruct (Hs s).
Qed.

(** The delayed callback: what it logs, by the state of the two window
    variables; it changes nothing else. *)
Lemma show_main_world (w : World) :
  show_main w
  = set_log
      (log w ++ at_time (now w)
         match splash w, mainWindow w with
         | object _, object _ =>
             [called (win_destroy Splash); called (win_show Main)]
         | object _, _ =>
             [called (win_destroy Splash); called throw_TypeError]
         | _, _ => [called throw_TypeError]
         end) w.
Proof.
  destruct w as [mw sp ov fl wi sk ls ti nx nw re lg].
  destruct sp as [| | s]; [| | destruct mw as [| | m]]; eval_script;
    cbn [at_time map app]; rewrite <- ?app_assoc; reflexivity.
Qed.


(** *** Counting *)

Lemma count_call_app (c : Call) (l l' : list (N * Entry)) :
  count_call c (l ++ l') = count_call c l + count_call c l'.
Proof. unfold count_call. now rewrite calls_app, filter_app, length_app. Qed.

Lemma count_call_ordinary (c : Call) (t : N) (l : list Entry) :
  forallb (only ordinary_call) l = true ->
  ordinary_call c = false ->
  count_call c (at_time t l) = 0.
Proof.
  intros Hl Hc. induction l as [| e l IH]; [reflexivity |].
  cbn [forallb] in Hl. apply andb_true_iff in Hl as [He Hl].
  change (at_time t (e :: l)) with ([(t, e)] ++ at_time t l).
  rewrite count_call_app, (IH Hl), Nat.add_0_r.
  destruct e as [x |]; [| reflexivity].
  unfold count_call. change (calls [(t, called x)]) with [x].
  rewrite filter_cons_False; [reflexivity |].
  intros ->. cbn in He. congruence.
Qed.

Lemma may_call_app (l l' : list (N * Entry)) :
  forallb may_call (calls (l ++ l'))
  = forallb may_call (calls l) && forallb may_call (calls l').
Proof. now rewrite calls_app, forallb_app. Qed.

Lemma may_call_ordinary (t : N) (l : list Entry) :
  forallb (only ordinary_call) l = true ->
  forallb may_call (calls (at_time t l)) = true.
Proof.
  induction l as [| e l IH]; [reflexivity |].
  cbn [forallb]. intros [He Hl]%andb_true_iff.
  change (at_time t (e :: l)) with ([(t, e)] ++ at_time t l).
  rewrite may_call_app, (IH Hl), andb_true_r.
  destruct e as [x |]; [| reflexivity].
  cbn in He |- *. unfold may_call. now rewrite He.
Qed.

Lemma count_timers_app (b : TimerBody) (ts ts' : list Timer) :
  count_timers b (ts ++ ts') = count_timers b ts + count_timers b ts'.
Proof. unfold count_timers. now rewrite filter_app, length_app. Qed.

Lemma count_timers_cons (b : TimerBody) (t : Timer) (ts : list Timer) :
  count_timers b (t :: ts)
  = (if decide (body t = b) then 1 else 0) + count_timers b ts.
Proof.
  unfold count_timers. rewrite filter_cons.
  now destruct (decide (body t = b)).
Qed.

Lemma count_timers_dropped_le (b : TimerBody) (id : nat) (ts : list Timer) :
  count_timers b (filter (fun t => tid t <> id) ts) <= count_timers b ts.
Proof.
  induction ts as [| t ts IH]; [reflexivity |].
  rewrite filter_cons. destruct (decide (tid t <> id)).
  - rewrite !count_timers_cons. lia.
  - rewrite count_timers_cons. lia.
Qed.

(** Dropping the id of a timer that runs [b] leaves one such timer less. *)
Lemma count_timers_dropped (b : TimerBody) (t : Timer) (ts : list Timer) :
  t ∈ ts -> body t = b ->
  count_timers b (filter (fun x => tid x <> tid t) ts) + 1
  <= count_timers b ts.
Proof.
  intros Hin Hb. induction ts as [| x ts IH]; [now apply elem_of_nil in Hin |].
  apply elem_of_cons in Hin as [<- | Hin].
  - rewrite filter_cons_False by tauto.
    rewrite count_timers_cons, decide_True by exact Hb.
    pose proof (count_timers_dropped_le b (tid t) ts). lia.
  - specialize (IH Hin). rewrite filter_cons.
    destruct (decide (tid x <> tid t)); rewrite !count_timers_cons; lia.
Qed.

Lemma count_timers_none (b : TimerBody) (ts : list Timer) :
  (forall tm, tm ∈ ts -> body tm <> b) <-> count_timers b ts = 0.
Proof.
  induction ts as [| t ts IH]; [split; [reflexivity |] |].
  { intros _ tm Hin. now apply elem_of_nil in Hin. }
  rewrite count_timers_cons. split.
  - intros H. rewrite decide_False.
    + apply IH. intros tm Hin. apply H. now apply list_elem_of_further.
    + apply H. apply list_elem_of_here.
  - destruct (decide (body t = b)); [lia |]. cbn [Nat.add].
    intros H0 tm Hin. pose proof (proj2 IH H0) as H1.
    apply elem_of_cons in Hin as [-> | Hin]; auto.
Qed.

Lemma retimed_same (id : nat) (t : N) (tm : Timer) :
  tid (retimed id t tm) = tid tm
  /\ body (retimed id t tm) = body tm
  /\ period (retimed id t tm) = period tm.
Proof. unfold retimed. case_bool_decide; repeat split; reflexivity. Qed.

Lemma count_timers_retimed (b : TimerBody) (id : nat) (t : N)
    (ts : list Timer) :
  count_timers b (map (retimed id t) ts) = count_timers b ts.
Proof.
  induction ts as [| x ts IH]; [reflexivity |].
  cbn [map]. rewrite !count_timers_cons, IH.
  destruct (retimed_same id t x) as (_ & -> & _). reflexivity.
Qed.


(** *** The invariant of the runs *)

Lemma steady_fields (w w' : World) :
  steady w w' ->
  exists l,
    log w' = log w ++ at_time (now w) l
    /\ forallb (only ordinary_call) l = true
    /\ timers w' = timers w
    /\ listeners w' = listeners w
    /\ ready_emitted w' = ready_emitted w
    /\ skipUpdateTimeout w' = skipUpdateTimeout w
    /\ windowShowInterval w' = windowShowInterval w
    /\ is_null (mainWindow w') = is_null (mainWindow w).
Proof.
  intros [(l & Hl & Hq) Hw]. exists l.
  split; [rewrite Hl; reflexivity |]. split; [exact Hq |].
  repeat (split; [rewrite Hl; reflexivity |]).
  destruct (mainWindow w), (mainWindow w'); cbn in Hw |- *;
    try reflexivity; contradiction.
Qed.

Lemma script_inv_steady (w w' : World) :
  steady w w' -> script_inv w -> script_inv w'.
Proof.
  intros Hs [H1 H2 H3 H4 H5 H6 H7 H8 H9].
  destruct (steady_fields w w' Hs)
    as (l & Hl & Hq & Ht & Hli & Hr & Hk & Hi & Hn).
  assert (Hc : forall c, ordinary_call c = false ->
                         count_call c (log w') = count_call c (log w)).
  { intros c Hc. rewrite Hl, count_call_app, count_call_ordinary; auto. }
  constructor; unfold pending_ready in *;
    rewrite ?Hn, ?Hk, ?Hli, ?Hr, ?Ht, ?Hi; try assumption.
  - rewrite Hl, may_call_app, H4. now apply may_call_ordinary.
  - rewrite (Hc launch) by reflexivity. exact H7.
  - rewrite (Hc launch), (Hc (win_show Main)) by reflexivity. exact H8.
  - rewrite (Hc launch), (Hc (win_destroy Splash)) by reflexivity. exact H9.
Qed.

Lemma script_inv_clock (t : N) (w : World) :
  script_inv w -> script_inv (set_now t w).
Proof. intros [H1 H2 H3 H4 H5 H6 H7 H8 H9]. now constructor. Qed.

Lemma script_inv_refile (id : nat) (p : N) (w : World) :
  script_inv w -> script_inv (refile id p w).
Proof.
  intros [H1 H2 H3 H4 H5 H6 H7 H8 H9].
  unfold refile.
  change (fun t : Timer =>
            if bool_decide (tid t = id)
            then {| tid := tid t; due := (now w + p)%N;
                    period := period t; body := body t |}
            else t) with (retimed id (now w + p)%N).
  constructor; unfold pending_ready in *;
    cbn [mainWindow skipUpdateTimeout listeners ready_emitted log timers
         windowShowInterval set_timers];
    rewrite ?count_timers_retimed; try assumption.
  - intros tm' Hin Hb.
    apply list_elem_of_fmap in Hin as (tm & -> & Hin).
    destruct (retimed_same id (now w + p)%N tm) as (-> & Eb & ->).
    rewrite Eb in Hb. now apply H5.
  - intros tm' Hin Hb.
    apply list_elem_of_fmap in Hin as (tm & -> & Hin).
    destruct (retimed_same id (now w + p)%N tm) as (_ & Eb & ->).
    rewrite Eb in Hb. now apply H6.
Qed.

Lemma script_inv_activate (i18n : Settled unit) (w : World) :
  script_inv w -> script_inv (activate i18n w).
Proof.
  intros Hw. unfold activate. now rewrite (si_not_null w Hw).
Qed.

Lemma script_inv_ready_to_show (w : World) :
  script_inv w ->
  script_inv ((unregister once_ready_to_show >>> set_shouldShowWindow true) w).
Proof.
  intros [H1 H2 H3 H4 H5 H6 H7 H8 H9].
  constructor; unfold pending_ready in *;
    cbn [then_ unregister set_shouldShowWindow set_listeners
         mainWindow skipUpdateTimeout listeners ready_emitted log timers
         windowShowInterval];
    try assumption.
  - etransitivity; [apply sublist_filter | exact H3].
  - destruct (ready_emitted w); [exact H7 |].
    pose proof (filter_filter_length (listeners w) on_ready
                  once_ready_to_show). lia.
Qed.


Lemma count_call_stamp_none (P : Call -> bool) (c : Call) (t : N)
    (l : list Call) :
  forallb P l = true -> P c = false -> count_call c (stamp t l) = 0.
Proof.
  intros Hl Hc. unfold count_call. rewrite calls_stamp.
  induction l as [| x l IH]; [reflexivity |].
  cbn [forallb] in Hl. apply andb_true_iff in Hl as [Hx Hl].
  rewrite filter_cons_False; [now apply IH |].
  intros ->. congruence.
Qed.

Lemma may_call_stamp (t : N) (l : list Call) :
  forallb startup_call l = true ->
  forallb may_call (calls (stamp t l)) = true.
Proof.
  rewrite calls_stamp. intros H. rewrite forallb_forall in H |- *.
  intros c Hc. unfold may_call. rewrite (H c Hc).
  now rewrite orb_true_r.
Qed.

Lemma ready_calls_startup (w : World) :
  skipUpdateTimeout w = None -> forallb startup_call (ready_calls w) = true.
Proof.
  intros Hk. unfold ready_calls, skipUpdateCheck_calls, startup_call,
    main_options, splash_options, mainUrlBase, localUrlBase.
  rewrite Hk.
  destruct __prod__, isMac, isLinux; vm_compute; reflexivity.
Qed.

(** The host emits ['ready'] to the listeners registered for it: none or,
    with the lock, one. *)
Lemma run_ready_none (i18n : Settled unit) (ls : list Listener) (x : World) :
  length (filter (fun l => l = on_ready) ls) = 0 ->
  run_listeners ls (app_ready i18n) x = x.
Proof.
  induction ls as [| l ls IH]; [reflexivity |].
  rewrite filter_cons. destruct (decide (l = on_ready)); [discriminate |].
  intros H. cbn [run_listeners].
  assert (E : listener_body l (app_ready i18n) = None)
    by (destruct l; try reflexivity; congruence).
  rewrite E. now apply IH.
Qed.

Lemma run_ready_one (i18n : Settled unit) (ls : list Listener) (x : World) :
  length (filter (fun l => l = on_ready) ls) = 1 ->
  run_listeners ls (app_ready i18n) x = ready i18n x.
Proof.
  induction ls as [| l ls IH]; [discriminate |].
  rewrite filter_cons. destruct (decide (l = on_ready)) as [-> | Hne].
  - cbn [length]. intros [= H]. cbn [run_listeners listener_body].
    unfold then_. now apply run_ready_none.
  - intros H. cbn [run_listeners].
    assert (E : listener_body l (app_ready i18n) = None)
      by (destruct l; try reflexivity; congruence).
    rewrite E. now apply IH.
Qed.

Lemma script_inv_ready (i18n : Settled unit) (w : World) :
  script_inv w ->
  ready_emitted w = false ->
  script_inv (emit (app_ready i18n) (set_ready_emitted true w)).
Proof.
  intros [H1 H2 H3 H4 H5 H6 H7 H8 H9] Hre.
  unfold emit, then_.
  set (x := record (emitted (event_name (app_ready i18n)))
              (set_ready_emitted true w)).
  unfold pending_ready in H7. rewrite Hre in H3, H7.
  assert (Hc : forall c, count_call c (log x) = count_call c (log w)).
  { intros c. unfold x, record.
    cbn [log set_log set_ready_emitted now].
    rewrite count_call_app. cbn. lia. }
  assert (Hm : forallb may_call (calls (log x)) = true).
  { unfold x, record. cbn [log set_log set_ready_emitted now].
    now rewrite may_call_app, H4. }
  assert (Fx : mainWindow x = mainWindow w
               /\ skipUpdateTimeout x = skipUpdateTimeout w
               /\ listeners x = listeners w
               /\ timers x = timers w
               /\ windowShowInterval x = windowShowInterval w
               /\ ready_emitted x = true) by (repeat split; reflexivity).
  destruct Fx as (F1 & F2 & F3 & F4 & F5 & F6).
  clearbody x. rewrite F3.
  destruct (length (filter (fun l => l = on_ready) (listeners w)))
    as [| [| k]] eqn:Hk; [| | lia].
  - (* no listener of 'ready' *)
    rewrite (run_ready_none i18n _ x Hk).
    constructor; unfold pending_ready;
      rewrite ?F1, ?F2, ?F3, ?F4, ?F5, ?F6, ?Hc; try assumption; try lia.
    now apply sublist_inserts_r.
  - (* the listener of 'ready' runs once *)
    rewrite (run_ready_one i18n _ x Hk).
    assert (Hp : count_timers poll_shouldShowWindow (timers w) = 0) by lia.
    destruct i18n as [u |].
    + rewrite ready_resolved_world. unfold after_ready, kept_timers.
      rewrite F2, F3, F4, F6, H2.
      assert (Hs : forallb startup_call (ready_calls x) = true)
        by (apply ready_calls_startup; congruence).
      assert (Hn : forall c, startup_call c = false ->
                    count_call c (log x ++ stamp (now x) (ready_calls x))
                    = count_call c (log w)).
      { intros c Hf.
        rewrite count_call_app, Hc,
          (count_call_stamp_none startup_call c _ _ Hs Hf). lia. }
      constructor; unfold pending_ready;
        cbn [mainWindow skipUpdateTimeout listeners ready_emitted timers
             windowShowInterval log is_null];
        try assumption; try reflexivity.
      * now apply sublist_app.
      * rewrite may_call_app, Hm. now apply may_call_stamp.
      * intros tm [Hin | Hin]%elem_of_app Hb.
        -- exfalso. now apply (proj2 (count_timers_none _ _) Hp tm Hin).
        -- apply list_elem_of_singleton in Hin as ->. now split.
      * intros tm [Hin | Hin]%elem_of_app Hb.
        -- now apply H6.
        -- apply list_elem_of_singleton in Hin as ->. discriminate Hb.
      * rewrite count_timers_app, !Hn by reflexivity.
        change (count_timers poll_shouldShowWindow [poll_timer x]) with 1.
        lia.
      * rewrite count_timers_app, !Hn by reflexivity.
        change (count_timers show_main_window [poll_timer x]) with 0.
        lia.
      * rewrite count_timers_app, !Hn by reflexivity.
        change (count_timers show_main_window [poll_timer x]) with 0.
        lia.
    + rewrite ready_rejected.
      assert (Hn : forall c, c <> i18n_init ->
                    count_call c (log (call i18n_init x))
                    = count_call c (log w)).
      { intros c Hne. rewrite log_call, count_call_app, Hc.
        unfold count_call. change (calls [(now x, called i18n_init)])
          with [i18n_init].
        rewrite filter_cons_False by congruence. cbn. lia. }
      constructor; unfold pending_ready;
        change (mainWindow (call i18n_init x)) with (mainWindow x);
        change (skipUpdateTimeout (call i18n_init x))
          with (skipUpdateTimeout x);
        change (listeners (call i18n_init x)) with (listeners x);
        change (ready_emitted (call i18n_init x)) with (ready_emitted x);
        change (timers (call i18n_init x)) with (timers x);
        change (windowShowInterval (call i18n_init x))
          with (windowShowInterval x);
        rewrite ?F1, ?F2, ?F3, ?F4, ?F5, ?F6, ?Hn by discriminate;
        try assumption; try lia.
      * now apply sublist_inserts_r.
      * now rewrite log_call, may_call_app, Hm.
Qed.

Lemma script_inv_after_poll (t : Timer) (w : World) :
  script_inv w ->
  t ∈ timers w -> body t = poll_shouldShowWindow ->
  script_inv (after_poll w).
Proof.
  intros [H1 H2 H3 H4 H5 H6 H7 H8 H9] Hin Hb.
  destruct (H5 t Hin Hb) as [Hi _].
  pose proof (count_timers_dropped poll_shouldShowWindow t (timers w) Hin Hb)
    as Hdrop.
  pose proof (count_timers_dropped_le show_main_window (tid t) (timers w))
    as Hle.
  assert (Hnone : count_timers poll_shouldShowWindow
                    (filter (fun x => tid x <> tid t) (timers w)) = 0).
  { apply count_timers_none. intros tm Htm Hbm.
    apply list_elem_of_filter in Htm as [Hne Htm].
    destruct (H5 tm Htm Hbm) as [Hi' _]. congruence. }
  unfold after_poll, unpolled_timers. rewrite Hi.
  set (L := [called launch] ++ [called (clearInterval (tid t))]
            ++ [called (setTimeout (next_timer w) 800)]).
  assert (C1 : count_call launch (at_time (now w) L) = 1) by reflexivity.
  assert (C2 : count_call (win_show Main) (at_time (now w) L) = 0)
    by reflexivity.
  assert (C3 : count_call (win_destroy Splash) (at_time (now w) L) = 0)
    by reflexivity.
  assert (C4 : forallb may_call (calls (at_time (now w) L)) = true)
    by reflexivity.
  clearbody L.
  constructor; unfold pending_ready in *;
    cbn [mainWindow skipUpdateTimeout listeners ready_emitted timers
         windowShowInterval log set_timers set_log];
    rewrite ?count_call_app, ?count_timers_app, ?C1, ?C2, ?C3, ?Hnone;
    try assumption.
  - now rewrite may_call_app, H4.
  - intros tm [Htm | Htm]%elem_of_app Hbm.
    + exfalso.
      now apply (proj2 (count_timers_none _ _) Hnone tm Htm).
    + apply list_elem_of_singleton in Htm as ->. discriminate Hbm.
  - intros tm [Htm | Htm]%elem_of_app Hbm.
    + apply list_elem_of_filter in Htm as [_ Htm]. now apply H6.
    + now apply list_elem_of_singleton in Htm as ->.
  - change (count_timers poll_shouldShowWindow [show_timer w]) with 0. lia.
  - change (count_timers show_main_window [show_timer w]) with 1. lia.
  - change (count_timers show_main_window [show_timer w]) with 1. lia.
Qed.

Lemma script_inv_show (t : Timer) (w : World) :
  script_inv w ->
  t ∈ timers w -> body t = show_main_window ->
  script_inv (show_main (drop_timer (tid t) w)).
Proof.
  intros [H1 H2 H3 H4 H5 H6 H7 H8 H9] Hin Hb.
  pose proof (count_timers_dropped show_main_window t (timers w) Hin Hb)
    as Hdrop.
  pose proof (count_timers_dropped_le poll_shouldShowWindow (tid t)
                (timers w)) as Hle.
  rewrite show_main_world. unfold drop_timer.
  cbn [splash mainWindow log now set_timers].
  set (L := match splash w, mainWindow w with
            | object _, object _ =>
                [called (win_destroy Splash); called (win_show Main)]
            | object _, _ =>
                [called (win_destroy Splash); called throw_TypeError]
            | _, _ => [called throw_TypeError]
            end).
  assert (C1 : count_call launch (at_time (now w) L) = 0)
    by (unfold L; destruct (splash w), (mainWindow w); reflexivity).
  assert (C2 : count_call (win_show Main) (at_time (now w) L) <= 1)
    by (unfold L; destruct (splash w), (mainWindow w); vm_compute; lia).
  assert (C3 : count_call (win_destroy Splash) (at_time (now w) L) <= 1)
    by (unfold L; destruct (splash w), (mainWindow w); vm_compute; lia).
  assert (C4 : forallb may_call (calls (at_time (now w) L)) = true)
    by (unfold L; destruct (splash w), (mainWindow w); reflexivity).
  clearbody L.
  constructor; unfold pending_ready in *;
    cbn [mainWindow skipUpdateTimeout listeners ready_emitted timers
         windowShowInterval log set_timers set_log];
    rewrite ?count_call_app, ?C1; try assumption; try lia.
  - now rewrite may_call_app, H4.
  - intros tm Htm Hbm. apply list_elem_of_filter in Htm as [_ Htm].
    now apply H5.
  - intros tm Htm Hbm. apply list_elem_of_filter in Htm as [_ Htm].
    now apply H6.
Qed.

Lemma find_timer_found (id : nat) (w : World) (t : Timer) :
  find_timer id w = Some t -> t ∈ timers w /\ tid t = id.
Proof.
  unfold find_timer. intros H. apply find_some in H as [H1 H2].
  split; [now apply list_elem_of_In | now apply bool_decide_eq_true_1 in H2].
Qed.

Lemma script_inv_fire (t : Timer) (w : World) :
  t ∈ timers w -> script_inv w -> script_inv (fire t w).
Proof.
  intros Hin Hw. unfold fire.
  destruct (body t) eqn:Hb.
  - destruct (si_polls w Hw t Hin Hb) as [_ ->].
    cbn [timer_body]. unfold then_. apply script_inv_refile.
    destruct (shouldShowWindow w) eqn:Hf; [| now rewrite poll_idle].
    destruct (splash w) as [| | s] eqn:Hs.
    + rewrite poll_no_splash by (assumption || congruence).
      apply (script_inv_steady w); [now apply Steady_call | exact Hw].
    + rewrite poll_no_splash by (assumption || congruence).
      apply (script_inv_steady w); [now apply Steady_call | exact Hw].
    + rewrite (poll_world s w Hf Hs).
      now apply (script_inv_after_poll t).
  - rewrite (si_shows w Hw t Hin Hb). cbn [timer_body]. unfold then_.
    now apply script_inv_show.
Qed.

Lemma script_inv_boot : script_inv boot.
Proof.
  constructor.
  - unfold boot, main.
    destruct isWin, instanceLock, (truthy_env hotReload); reflexivity.
  - unfold boot, main.
    destruct isWin, instanceLock, (truthy_env hotReload); reflexivity.
  - unfold boot, main, boot_listeners.
    destruct isWin, instanceLock, (truthy_env hotReload);
      cbn [negb when then_ register set_listeners listeners ready_emitted
           call record set_log empty_world skip app];
      repeat first [ apply sublist_nil | apply sublist_skip
                   | apply sublist_cons ].
  - rewrite boot_calls. unfold may_call, startup_call.
    destruct isWin, instanceLock, (truthy_env hotReload); reflexivity.
  - unfold boot, main.
    destruct isWin, instanceLock, (truthy_env hotReload);
      intros tm Hin; now apply elem_of_nil in Hin.
  - unfold boot, main.
    destruct isWin, instanceLock, (truthy_env hotReload);
      intros tm Hin; now apply elem_of_nil in Hin.
  - unfold boot, main, pending_ready.
    destruct isWin, instanceLock, (truthy_env hotReload); vm_compute; lia.
  - unfold boot, main.
    destruct isWin, instanceLock, (truthy_env hotReload); vm_compute; lia.
  - unfold boot, main.
    destruct isWin, instanceLock, (truthy_env hotReload); vm_compute; lia.
Qed.

Lemma step_script_inv (ev : Event) (w w' : World) :
  script_inv w -> step ev w = Some w' -> script_inv w'.
Proof.
  intros Hw Hs.
  destruct (ordinary ev) eqn:Ho.
  { apply (script_inv_steady w w'); [| exact Hw].
    now apply (step_ordinary_steady ev). }
  destruct ev; try discriminate Ho; cbn [step] in Hs.
  - destruct (ready_emitted w) eqn:Hre; [discriminate |].
    injection Hs as <-. now apply script_inv_ready.
  - injection Hs as <-. unfold emit, then_.
    apply run_listeners_stable.
    + intros l c Hb x Hx. destruct l; try discriminate Hb.
      injection Hb as <-. now apply script_inv_activate.
    + apply (script_inv_steady w); [| exact Hw]. now apply Steady_record.
  - injection Hs as <-. unfold emit, then_.
    apply run_listeners_stable.
    + intros l c Hb x Hx. destruct l; try discriminate Hb.
      injection Hb as <-. now apply script_inv_ready_to_show.
    + apply (script_inv_steady w); [| exact Hw]. now apply Steady_record.
  - destruct (find_timer id w) as [t |] eqn:Hfind; [| discriminate].
    destruct (due t <=? now w)%N; [| discriminate].
    injection Hs as <-. apply script_inv_fire; [| exact Hw].
    now apply (find_timer_found id).
  - injection Hs as <-. now apply script_inv_clock.
Qed.

Lemma run_script_inv (evs : list Event) (w : World) :
  run evs boot = Some w -> script_inv w.
Proof.
  apply (run_invariant script_inv step_script_inv evs boot w).
  apply script_inv_boot.
Qed.


(** *** What no run does *)

Lemma may_call_elem (c : Call) (l : list Call) :
  forallb may_call l = true -> c ∈ l -> may_call c = true.
Proof.
  intros H Hin. rewrite forallb_forall in H. apply H.
  now apply list_elem_of_In.
Qed.

(** X8. In every run the hand-off happens at most once: the message
    ["launch"] goes to the splash window at most once, the splash window
    is destroyed at most once and the main window is shown at most once,
    and by then the polling interval has been cleared. *)
Theorem handoff_happens_at_most_once (evs : list Event) (w : World) :
  run evs boot = Some w ->
  count_call launch (log w) <= 1
  /\ count_call (win_destroy Splash) (log w) <= 1
  /\ count_call (win_show Main) (log w) <= 1
  /\ (count_call launch (log w) = 1 ->
      count_timers poll_shouldShowWindow (timers w) = 0).
Proof.
  intros Hr. destruct (run_script_inv evs w Hr) as [_ _ _ _ _ _ H7 H8 H9].
  repeat split; lia.
Qed.

(** X9. [skipUpdateTimeout] is never assigned, so the guard
    [if (skipUpdateTimeout)] of [skipUpdateCheck] never passes: in no run is
    [clearTimeout] called. *)
Theorem clearTimeout_is_never_called
    (evs : list Event) (w : World) (id : nat) :
  run evs boot = Some w ->
  skipUpdateTimeout w = None /\ clearTimeout id ∉ calls (log w).
Proof.
  intros Hr. pose proof (run_script_inv evs w Hr) as Hw.
  split; [exact (si_timeout_unset w Hw) |].
  intros Hin. pose proof (may_call_elem _ _ (si_calls w Hw) Hin) as H.
  discriminate H.
Qed.

(** X10. The build decides what the main window loads, in every run: a
    packaged build loads [https://dogehouse.tv/] and never opens the
    developer tools; an unpackaged one loads [http://localhost:3000].
    Nothing else is ever loaded with [loadURL]. *)
Theorem build_decides_url_and_devtools
    (evs : list Event) (w : World) (url : string) :
  run evs boot = Some w ->
  (loadURL url ∈ calls (log w) ->
   url = if __prod__ then "https://dogehouse.tv/" else "http://localhost:3000")
  /\ (openDevTools ∈ calls (log w) -> __prod__ = false).
Proof.
  intros Hr. pose proof (run_script_inv evs w Hr) as Hw.
  split; intros Hin;
    pose proof (may_call_elem _ _ (si_calls w Hw) Hin) as H.
  - unfold may_call in H. cbn [ordinary_call startup_call handoff_call] in H.
    rewrite orb_false_r in H. cbn [orb] in H.
    apply bool_decide_eq_true_1 in H. exact H.
  - unfold may_call in H. cbn [ordinary_call startup_call handoff_call] in H.
    rewrite orb_false_r in H. cbn [orb] in H.
    now destruct __prod__.
Qed.

(** X11. Every window that any run creates is one of the two of the
    script, with the options of the script: the main window 1500 by 800,
    at least 400 by 600 and created hidden; the splash window 290 by 400,
    frameless and transparent. *)
Theorem every_window_has_the_scripts_options
    (evs : list Event) (w : World) (k : Win) (o : BrowserWindowOptions) :
  run evs boot = Some w ->
  new_BrowserWindow k o ∈ calls (log w) ->
  match k with
  | Main =>
      o = main_options
      /\ width o = 1500%Z /\ height o = 800%Z
      /\ minWidth o = Some 400%Z /\ minHeight o = Some 600%Z
      /\ show o = Some false
  | Splash =>
      o = splash_options
      /\ width o = 290%Z /\ height o = 400%Z
      /\ frame o = Some false /\ transparent o = Some true
  end.
Proof.
  intros Hr Hin. pose proof (run_script_inv evs w Hr) as Hw.
  pose proof (may_call_elem _ _ (si_calls w Hw) Hin) as H.
  unfold may_call in H.
  destruct k; cbn [ordinary_call startup_call handoff_call] in H;
    rewrite orb_false_r in H; cbn [orb] in H;
    apply bool_decide_eq_true_1 in H; subst o; repeat split; reflexivity.
Qed.

(** *** The ['activate'] listener *)

Lemma run_activate_idle (i18n : Settled unit) (ls : list Listener) (x : World) :
  is_null (mainWindow x) = false ->
  run_listeners ls (app_activate i18n) x = x.
Proof.
  intros Hn. induction ls as [| l ls IH]; [reflexivity |].
  cbn [run_listeners].
  destruct (listener_body l (app_activate i18n)) as [c |] eqn:E;
    [| exact IH].
  destruct l; try discriminate E. injection E as <-.
  unfold then_, activate. rewrite Hn. exact IH.
Qed.

(** X12. The ['activate'] listener never does anything.  It recreates
    the main window only when [mainWindow === null], and in no run is
    [mainWindow] ever [null]: the variable starts [undefined] and is only
    ever assigned a window.  So activating the application, whether before
    the start-up or after the main window has closed, makes no call and
    changes nothing. *)
Theorem activate_never_recreates_the_window
    (evs : list Event) (w : World) (i18n : Settled unit) :
  run evs boot = Some w ->
  is_null (mainWindow w) = false
  /\ activate i18n w = w
  /\ step (app_activate i18n) w = Some (record (emitted "activate") w).
Proof.
  intros Hr. pose proof (run_script_inv evs w Hr) as Hw.
  pose proof (si_not_null w Hw) as Hn.
  split; [exact Hn |]. split.
  - unfold activate. now rewrite Hn.
  - cbn [step]. unfold emit, then_. f_equal.
    now apply run_activate_idle.
Qed.


(** *** One listener per event *)

Lemma listener_of_event_unique (l l' : Listener) (ev : Event) (c c' : Cmd) :
  listener_body l ev = Some c -> listener_body l' ev = Some c' -> l = l'.
Proof.
  intros H H'.
  destruct l; destruct ev; try discriminate H;
    destruct l'; try discriminate H'; reflexivity.
Qed.

Lemma run_listeners_unbound (ls : list Listener) (ev : Event) (x : World) :
  (forall l, l ∈ ls -> listener_body l ev = None) ->
  run_listeners ls ev x = x.
Proof.
  induction ls as [| l ls IH]; intros H; [reflexivity |].
  cbn [run_listeners]. rewrite (H l) by apply list_elem_of_here.
  apply IH. intros l' Hin. apply H. now apply list_elem_of_further.
Qed.

Lemma run_listeners_NoDup (ls : list Listener) (ev : Event) :
  NoDup ls ->
  (forall l, l ∈ ls -> listener_body l ev = None)
  \/ exists l c, l ∈ ls /\ listener_body l ev = Some c
                 /\ forall x, run_listeners ls ev x = c x.
Proof.
  induction 1 as [| l ls Hnin Hnd IH].
  - left. intros l Hin. now apply elem_of_nil in Hin.
  - destruct (listener_body l ev) as [c |] eqn:E.
    + right. exists l, c. split; [apply list_elem_of_here |].
      split; [exact E |]. intros x. cbn [run_listeners]. rewrite E.
      unfold then_. apply run_listeners_unbound. intros l' Hin.
      destruct (listener_body l' ev) as [c' |] eqn:E'; [| reflexivity].
      exfalso. apply Hnin.
      now rewrite (listener_of_event_unique l l' ev c c' E E').
    + destruct IH as [IH | (l' & c & Hin & E' & IH)].
      * left. intros l' [-> | Hin]%elem_of_cons; auto.
      * right. exists l', c. split; [now apply list_elem_of_further |].
        split; [exact E' |]. intros x. cbn [run_listeners].
        rewrite E. apply IH.
Qed.

(** X13. In every run each listener is registered at most once, and no
    listener is registered that the script does not have.  So an event is
    never handled twice: the host's emitting it runs at most one closure
    of the script, once. *)
Theorem each_event_has_at_most_one_listener
    (evs : list Event) (w : World) (ev : Event) :
  run evs boot = Some w ->
  NoDup (listeners w)
  /\ sublist (listeners w) (boot_listeners ++ window_listeners)
  /\ ((forall x, run_listeners (listeners w) ev x = x)
      \/ exists l c, l ∈ listeners w /\ listener_body l ev = Some c
                     /\ forall x, run_listeners (listeners w) ev x = c x).
Proof.
  intros Hr. pose proof (run_script_inv evs w Hr) as Hw.
  assert (Hs : sublist (listeners w) (boot_listeners ++ window_listeners)).
  { pose proof (si_listeners w Hw) as H.
    destruct (ready_emitted w); [exact H |].
    now apply sublist_inserts_r. }
  assert (Hd : NoDup (listeners w)).
  { apply (sublist_NoDup _ (boot_listeners ++ window_listeners));
      [| exact Hs].
    refine (bool_decide_unpack _ _). vm_compute. exact I. }
  split; [exact Hd |]. split; [exact Hs |].
  destruct (run_listeners_NoDup (listeners w) ev Hd) as [H | H].
  - left. intros x. now apply run_listeners_unbound.
  - right. exact H.
Qed.


(** *** The world at the start *)

Lemma boot_fresh : instanceLock = true -> boot = set_log (log boot) fresh_world.
Proof.
  intros Hl. unfold boot, main. rewrite Hl.
  destruct isWin; reflexivity.
Qed.


(** *** The hand-off completes *)

Lemma step_ready_fresh (u : unit) (lg : list (N * Entry)) :
  step (app_ready (resolved u)) (set_log lg fresh_world)
  = Some (after_ready
            (record (emitted "ready")
               (set_ready_emitted true (set_log lg fresh_world)))).
Proof.
  cbn [step fresh_world ready_emitted set_log set_listeners empty_world].
  unfold emit, then_. f_equal.
  rewrite <- (ready_resolved_world u). now apply run_ready_one.
Qed.

(** Delivers the next event of a run to a world given field by field. *)
Ltac deliver :=
  match goal with
  | |- context [run (?ev :: ?rest) ?w] =>
      change (run (ev :: rest) w)
        with (match step ev w with
              | Some w' => run rest w'
              | None => None
              end);
      let s := eval cbv -[N.add N.leb] in (step ev w) in
      change (step ev w) with s;
      cbv beta iota
  end.

Ltac due_now :=
  match goal with
  | |- context [(?a <=? ?b)%N] =>
      replace (a <=? b)%N with true by (symmetry; apply N.leb_le; lia)
  end.

(** X14. The hand-off completes.  In a process that holds the lock, once
    the localisation has resolved and the main window has reported
    ['ready-to-show'], one tick of the polling interval (due 1000 ms after
    the start-up) and the delayed callback (due 800 ms after that tick)
    are all it takes, whatever the platform and the build: the polling
    callback sends ["launch"], clears its interval and sets the delay; the
    delayed callback destroys the splash window and shows the main window
    at the instant it runs; and no timer is left pending. *)
Theorem handoff_completes (u : unit) (d0 d1 d2 : N) :
  instanceLock = true ->
  (1000 <= d0 + d1)%N ->
  (800 <= d2)%N ->
  exists w : World,
    run [app_ready (resolved u); clock_advance d0; main_ready_to_show;
         clock_advance d1; timer_fires 0; clock_advance d2; timer_fires 1]
      boot = Some w
    /\ log w
       = log boot
         ++ [(0%N, emitted "ready")]
         ++ stamp 0 (ready_calls fresh_world)
         ++ [((0 + d0)%N, emitted "ready-to-show")]
         ++ at_time (0 + d0 + d1)%N
              [called launch; called (clearInterval 0);
               called (setTimeout 1 800)]
         ++ at_time (0 + d0 + d1 + d2)%N
              [called (win_destroy Splash); called (win_show Main)]
    /\ timers w = [].
Proof.
  intros Hl H1 H2. rewrite (boot_fresh Hl).
  generalize (log boot) as lg. intros lg.
  change (run (app_ready (resolved u) :: ?rest) ?w)
    with (match step (app_ready (resolved u)) w with
          | Some w' => run rest w'
          | None => None
          end).
  rewrite step_ready_fresh.
  set (x := record _ _).
  assert (Hc : stamp (now x) (ready_calls x)
               = stamp 0 (ready_calls fresh_world)) by reflexivity.
  unfold after_ready. rewrite Hc.
  generalize (stamp 0 (ready_calls fresh_world)) as l1. intros l1.
  subst x.
  set (w1 := mkWorld _ _ _ _ _ _ _ _ _ _ _ _).
  let v := eval cbv -[N.add N.leb stamp] in w1 in change w1 with v.
  clear w1.
  do 4 deliver. due_now. cbv beta iota.
  do 2 deliver. due_now. cbv beta iota.
  cbn [run]. eexists. split; [reflexivity |].
  split; [| reflexivity].
  cbn [log]. fold (@app (N * Entry)).
  unfold at_time, launch. cbn [map]. rewrite <- !app_assoc. reflexivity.
Qed.


(** *** When the localisation fails *)

Lemma run_invariant_when (P : Event -> bool) (I : World -> Prop) :
  (forall ev w w', P ev = true -> I w -> step ev w = Some w' -> I w') ->
  forall evs w w',
    Forall (fun ev => P ev = true) evs -> I w -> run evs w = Some w' -> I w'.
Proof.
  intros H evs. induction evs as [| ev evs IH]; intros w w' Hp Hw Hr.
  - cbn in Hr. now injection Hr as <-.
  - cbn [run] in Hr. destruct (step ev w) as [w1 |] eqn:E; [| discriminate].
    inversion Hp as [| ? ? Hev Hevs]; subst.
    exact (IH w1 w' Hevs (H ev w w1 Hev Hw E) Hr).
Qed.

Lemma windows_created_snoc (k : Win) (l : list (N * Entry)) (t : N) (e : Entry) :
  windows_created k (calls (l ++ [(t, e)]))
  = windows_created k (calls l) ++ windows_created k (calls [(t, e)]).
Proof. rewrite calls_app. apply omap_app. Qed.

Lemma never_started_boot : instanceLock = true -> never_started boot.
Proof.
  intros Hl. unfold never_started, boot, main. rewrite Hl.
  destruct isWin; repeat split; intros []; reflexivity.
Qed.

Lemma step_never_started (ev : Event) (w w' : World) :
  negb (starts_up ev) = true ->
  never_started w -> step ev w = Some w' -> never_started w'.
Proof.
  destruct w as [mw sp ov fl wi sk ls ti nx nw re lg].
  unfold never_started. cbn [mainWindow splash timers listeners log].
  intros Hev (-> & -> & -> & -> & Hlog).
  destruct ev as [[u |] | | | i18n | | | url | url | answer | | | | | |
                  | mini maxi full | id | ms];
    try discriminate Hev; clear Hev.
  all: cbn [step find_timer timers List.find ready_emitted].
  all: try discriminate.
  all: try (destruct re; [discriminate |]).
  all: intros [= <-].
  all: unfold emit, boot_listeners, set_ready_emitted, set_now;
    eval_script;
    cbn [event_name run_listeners listener_body];
    unfold second_instance, ready; eval_script;
    cbn [is_null].
  all: repeat split; try assumption.
  all: intros k; rewrite ?windows_created_snoc, ?Hlog; destruct k; reflexivity.
Qed.

(** X15. A failed localisation is final.  In a process that holds the
    lock, as long as ['ready'] has not been delivered with [i18n.init]
    resolved (in particular when [i18n.init] rejects, for which the script
    has no handler), no window is ever created, whatever else happens:
    both window variables stay [undefined], the log holds no
    [new BrowserWindow], no timer is pending, and the listeners are still
    only the four of the module body.  ['activate'] does not help, since
    it compares the variable with [null]. *)
Theorem failed_localisation_leaves_no_window (evs : list Event) (w : World) :
  instanceLock = true ->
  Forall (fun ev => negb (starts_up ev) = true) evs ->
  run evs boot = Some w ->
  mainWindow w = undefined
  /\ splash w = undefined
  /\ timers w = []
  /\ listeners w = boot_listeners
  /\ forall k, windows_created k (calls (log w)) = [].
Proof.
  intros Hl Hevs Hr.
  exact (run_invariant_when (fun ev => negb (starts_up ev)) never_started
           step_never_started evs boot w Hevs (never_started_boot Hl) Hr).
Qed.


(** *** A second launch *)

Lemma listeners_timer_body (b : TimerBody) (w : World) :
  listeners (timer_body b w) = listeners w.
Proof.
  destruct b; cbn [timer_body].
  - destruct (shouldShowWindow w) eqn:Hf; [| now rewrite poll_idle].
    destruct (splash w) as [| | s] eqn:Hs.
    + rewrite poll_no_splash by (assumption || congruence). reflexivity.
    + rewrite poll_no_splash by (assumption || congruence). reflexivity.
    + rewrite (poll_world s) by assumption. reflexivity.
  - rewrite show_main_world. reflexivity.
Qed.

Lemma listeners_fire (t : Timer) (w : World) :
  listeners (fire t w) = listeners w.
Proof.
  unfold fire. destruct (period t) as [p |]; unfold then_.
  - unfold refile. cbn [listeners set_timers]. apply listeners_timer_body.
  - rewrite listeners_timer_body. reflexivity.
Qed.

Lemma script_inv_NoDup (w : World) : script_inv w -> NoDup (listeners w).
Proof.
  intros Hw.
  apply (sublist_NoDup _ (boot_listeners ++ window_listeners)).
  - refine (bool_decide_unpack _ _). vm_compute. exact I.
  - pose proof (si_listeners w Hw) as H.
    destruct (ready_emitted w); [exact H |].
    now apply sublist_inserts_r.
Qed.

Lemma step_keeps_second_instance (ev : Event) (w w' : World) :
  script_inv w ->
  on_second_instance ∈ listeners w ->
  step ev w = Some w' ->
  on_second_instance ∈ listeners w'.
Proof.
  intros Hw Hin Hs.
  destruct (ordinary ev) eqn:Ho.
  { destruct (steady_fields w w') as (l & _ & _ & _ & -> & _);
      [now apply (step_ordinary_steady ev) | exact Hin]. }
  destruct ev; try discriminate Ho; cbn [step] in Hs.
  - destruct (ready_emitted w); [discriminate |].
    injection Hs as <-. unfold emit, then_.
    apply (run_listeners_stable
             (fun x => on_second_instance ∈ listeners x)); [| exact Hin].
    intros l c Hb x Hx. destruct l; try discriminate Hb.
    injection Hb as <-. destruct i18n as [u |].
    + rewrite ready_resolved_world. cbn [after_ready listeners].
      apply elem_of_app. now left.
    + exact Hx.
  - injection Hs as <-. unfold emit, then_.
    apply (run_listeners_stable
             (fun x => is_null (mainWindow x) = false
                       /\ on_second_instance ∈ listeners x));
      [| split; [exact (si_not_null w Hw) | exact Hin]].
    intros l c Hb x [Hn Hx]. destruct l; try discriminate Hb.
    injection Hb as <-. unfold activate. rewrite Hn. now split.
  - injection Hs as <-. unfold emit, then_.
    apply (run_listeners_stable
             (fun x => on_second_instance ∈ listeners x)); [| exact Hin].
    intros l c Hb x Hx. destruct l; try discriminate Hb.
    injection Hb as <-.
    cbn [then_ unregister set_shouldShowWindow set_listeners listeners].
    apply list_elem_of_filter. split; [discriminate | exact Hx].
  - destruct (find_timer id w) as [t |]; [| discriminate].
    destruct (due t <=? now w)%N; [| discriminate].
    injection Hs as <-. now rewrite listeners_fire.
  - injection Hs as <-. exact Hin.
Qed.

Lemma run_keeps_second_instance (evs : list Event) (w : World) :
  instanceLock = true ->
  run evs boot = Some w ->
  script_inv w /\ on_second_instance ∈ listeners w.
Proof.
  intros Hl.
  apply (run_invariant
           (fun x => script_inv x /\ on_second_instance ∈ listeners x)).
  - intros ev x x' [Hx Hin] Hs. split.
    + now apply (step_script_inv ev x).
    + now apply (step_keeps_second_instance ev x).
  - split; [apply script_inv_boot |].
    rewrite (boot_fresh Hl). cbn [listeners set_log fresh_world set_listeners].
    refine (bool_decide_unpack _ _). vm_compute. exact I.
Qed.

(** X16. A second launch brings the running window forward.  In every
    state that a process holding the lock can reach, the host's
    ['second-instance'] runs the script's listener, once: with a main
    window it restores the window if it is minimized and then focuses it
    (or, when the environment variable [hotReload] is truthy, closes it
    and does nothing else); without a main window it does nothing.  No
    timer and no listener changes. *)
Theorem second_launch_brings_the_window_forward
    (evs : list Event) (w : World) :
  instanceLock = true ->
  run evs boot = Some w ->
  exists w',
    step app_second_instance w = Some w'
    /\ log w'
       = log w ++ [(now w, emitted "second-instance")]
         ++ at_time (now w)
              match mainWindow w with
              | object bw =>
                  if truthy_env hotReload then [called (win_close Main)]
                  else (if minimized bw then [called (win_restore Main)]
                        else [])
                       ++ [called (win_focus Main)]
              | _ => []
              end
    /\ timers w' = timers w
    /\ listeners w' = listeners w.
Proof.
  intros Hl Hr.
  destruct (run_keeps_second_instance evs w Hl Hr) as [Hw Hin].
  exists (second_instance (record (emitted "second-instance") w)).
  assert (E : step app_second_instance w
              = Some (second_instance (record (emitted "second-instance") w))).
  { cbn [step]. unfold emit, then_. cbn [event_name]. f_equal.
    change (listeners (record (emitted "second-instance") w))
      with (listeners w).
    destruct (run_listeners_NoDup (listeners w) app_second_instance
                (script_inv_NoDup w Hw)) as [H | (l & c & _ & Hb & H)].
    - pose proof (H on_second_instance Hin) as Hb. discriminate Hb.
    - destruct l; try discriminate Hb. injection Hb as <-. apply H. }
  split; [exact E |]. clear E Hr Hw Hin.
  destruct w as [mw sp ov fl wi sk ls ti nx nw re lg].
  unfold second_instance.
  cbn [record set_log mainWindow log now timers listeners].
  destruct mw as [| | bw];
    [cbn [at_time map]; now rewrite app_nil_r
    | cbn [at_time map]; now rewrite app_nil_r |].
  destruct bw as [o mi ma fu fa mx mn]. cbn [minimized].
  destruct (truthy_env hotReload), mi; eval_script;
    cbn [set_minimized minimized at_time map app];
    rewrite <- ?app_assoc; repeat split.
Qed.


End Script.

(** ** The properties on concrete inputs *)

(** A foreign host on the sample list: the ['will-navigate'] listener
    redirects [https://example.org/about]. *)
Lemma foreign_host_is_opened_externally_witness :
  exists c : Cmd,
    listener_body sample_hosts false true false true None sample_URL
      on_will_navigate (web_will_navigate "https://example.org/about")
    = Some c
    /\ c empty_world = redirected "https://example.org/about" empty_world
    /\ calls_of c empty_world
       = [event_preventDefault;
          shell_openExternal "https://example.org/about"].
Proof.
  apply (foreign_host_is_opened_externally
           sample_hosts false true false true None sample_URL
           "https://example.org/about"
           {| hostname := "example.org"; pathname := "/about" |}
           on_will_navigate
           (web_will_navigate "https://example.org/about")
           empty_world).
  - reflexivity.
  - refine (bool_decide_unpack _ _). vm_compute. exact I.
  - right. split; reflexivity.
Defined.

(** On the sample list, the login page of the host at index 3 stays in the
    application and the home page of the host at index 8 is redirected. *)
Lemma listed_path_stays_in_app_witness :
  (handleLinks sample_hosts sample_URL "https://github.com/login" empty_world
   = empty_world
   /\ calls_of (handleLinks sample_hosts sample_URL "https://github.com/login")
        empty_world = [])
  /\ (handleLinks sample_hosts sample_URL "https://twitter.com/home"
        empty_world
      = redirected "https://twitter.com/home" empty_world
      /\ calls_of (handleLinks sample_hosts sample_URL
                     "https://twitter.com/home") empty_world
         = [event_preventDefault;
            shell_openExternal "https://twitter.com/home"]).
Proof.
  split.
  - apply (listed_path_stays_in_app_others_are_redirected
             sample_hosts sample_URL 3 "https://github.com/login"
             {| hostname := "github.com"; pathname := "/login" |}
             empty_world).
    + left. reflexivity.
    + vm_compute. discriminate.
    + reflexivity.
    + reflexivity.
    + refine (bool_decide_unpack _ _). vm_compute. exact I.
  - apply (listed_path_stays_in_app_others_are_redirected
             sample_hosts sample_URL 8 "https://twitter.com/home"
             {| hostname := "twitter.com"; pathname := "/home" |}
             empty_world).
    + right. reflexivity.
    + vm_compute. discriminate.
    + reflexivity.
    + reflexivity.
    + refine (bool_decide_unpack _ _). vm_compute. exact I.
Defined.

(** A repository page of the host at index 3 is opened externally. *)
Lemma external_open_iff_path_not_listed_witness :
  shell_openExternal "https://github.com/benawad/dogehouse"
  ∈ calls_of
      (handleLinks sample_hosts sample_URL
         "https://github.com/benawad/dogehouse") empty_world.
Proof.
  apply (external_open_iff_path_not_listed
           sample_hosts sample_URL 3 "https://github.com/benawad/dogehouse"
           {| hostname := "github.com"; pathname := "/benawad/dogehouse" |}
           empty_world).
  - left. reflexivity.
  - vm_compute. discriminate.
  - reflexivity.
  - reflexivity.
  - refine (bool_decide_unpack _ _). vm_compute. exact I.
Defined.

(** C3 as the specification states it fails: [/login] is on the list of
    the host at index 3, and navigating to it does not call
    [shell.openExternal], while a path that is not on the list does. *)
Lemma external_open_on_listed_path_counterexample :
  sample_hosts !! 3 = Some "github.com"
  /\ sample_URL "https://github.com/login"
     = Some {| hostname := "github.com"; pathname := "/login" |}
  /\ "/login" ∈ in_app_paths 3
  /\ (shell_openExternal "https://github.com/login"
      ∉ calls_of (handleLinks sample_hosts sample_URL
                    "https://github.com/login") empty_world)
  /\ sample_URL "https://github.com/benawad/dogehouse"
     = Some {| hostname := "github.com"; pathname := "/benawad/dogehouse" |}
  /\ ("/benawad/dogehouse" ∉ in_app_paths 3)
  /\ shell_openExternal "https://github.com/benawad/dogehouse"
     ∈ calls_of (handleLinks sample_hosts sample_URL
                   "https://github.com/benawad/dogehouse") empty_world.
Proof.
  split; [reflexivity |]. split; [reflexivity |].
  split; [refine (bool_decide_unpack _ _); vm_compute; exact I |].
  split.
  { vm_compute. intros H. inversion H. }
  split; [reflexivity |].
  split; [refine (bool_decide_unpack _ _); vm_compute; exact I |].
  vm_compute. apply elem_of_cons. right. apply elem_of_cons. now left.
Qed.


(** Finds an entry in a literal list. *)
Ltac find_entry :=
  first [ apply list_elem_of_here
        | apply list_elem_of_further; find_entry ].

(** A start-up in which the main window reports ready at once: the polling
    callback sees the flag after one second and the main window is shown
    800 ms later, at 1800. *)
Lemma main_window_shown_witness :
  exists w : World,
    run sample_hosts false true false true None sample_URL
      [app_ready (resolved ()); main_ready_to_show; clock_advance 1000;
       timer_fires 0; clock_advance 800; timer_fires 1]
      (boot false None true) = Some w
    /\ (1800%N, called (win_show Main)) ∈ log w
    /\ exists (t_ready t_set t_seen : N) (id : nat)
              (l1 l2 l3 l4 : list (N * Entry)),
         log w = l1 ++ (t_ready, emitted "ready-to-show")
                    :: l2 ++ (t_seen, called (webContents_send Splash "launch"))
                    :: l3 ++ (1800%N, called (win_destroy Splash))
                    :: (1800%N, called (win_show Main)) :: l4
         /\ (t_ready <= t_seen)%N
         /\ (t_seen + 800 <= 1800)%N
         /\ (t_set, called (setInterval id 1000)) ∈ log w
         /\ (t_set + 1000 <= t_seen)%N.
Proof.
  eexists. split; [vm_compute; reflexivity |].
  split.
  - cbn [log]. find_entry.
  - apply (main_window_shown_only_after_ready_and_delay
             sample_hosts false true false true None true sample_URL
             [app_ready (resolved ()); main_ready_to_show; clock_advance 1000;
              timer_fires 0; clock_advance 800; timer_fires 1]).
    + vm_compute. reflexivity.
    + cbn [log]. find_entry.
Defined.


(** The delayed callback cannot run 799 ms after the flag was seen: the
    host does not fire a timer that is not due. *)
Example show_timer_is_not_fired_early :
  run sample_hosts false true false true None sample_URL
    [app_ready (resolved ()); main_ready_to_show; clock_advance 1000;
     timer_fires 0; clock_advance 799; timer_fires 1]
    (boot false None true) = None.
Proof. vm_compute. reflexivity. Qed.

(** Two second launches reach the instance that holds the lock, one
    before and one after its start-up: one main window is created, and the
    listener only focuses it. *)
Lemma second_launch_witness :
  exists w : World,
    run sample_hosts false true false true None sample_URL
      [app_second_instance; app_ready (resolved ()); app_second_instance;
       app_activate (resolved ()); app_second_instance]
      (boot false None true) = Some w
    /\ created Main (log w) <= 1
    /\ calls_of (second_instance None) w = [win_focus Main].
Proof.
  eexists. split; [vm_compute; reflexivity |].
  match goal with
  | |- created Main (log ?w) <= 1 /\ _ =>
      destruct (second_launch_creates_no_second_main_window
                  sample_hosts false true false true None true sample_URL
                  [app_second_instance; app_ready (resolved ());
                   app_second_instance; app_activate (resolved ());
                   app_second_instance] w w)
        as (H1 & _ & _ & H2)
  end.
  - vm_compute. reflexivity.
  - split; [exact H1 | exact H2].
Defined.

(** A process without the lock, started in hot-reload mode on Windows:
    it relaunches, exits, and creates no window even when the host goes on
    to emit ['ready'] and ['activate']. *)
Lemma lock_failure_witness :
  exists w : World,
    run sample_hosts false false true false (Some "1") sample_URL
      [app_ready (resolved ()); app_activate (resolved ());
       app_second_instance]
      (boot true (Some "1") false) = Some w
    /\ calls (log (boot true (Some "1") false))
       = [app_requestSingleInstanceLock; i18n_use_Backend;
          electronLogger_level "debug";
          app_setAppUserModelId "DogeHouse Reloaded";
          app_relaunch; exitApp]
    /\ created Main (log w) = 0
    /\ created Splash (log w) = 0.
Proof.
  eexists. split; [vm_compute; reflexivity |].
  match goal with
  | |- _ /\ created Main (log ?w) = 0 /\ _ =>
      destruct (lock_failure_exits_without_a_window
                  sample_hosts false false true false (Some "1") false
                  sample_URL
                  [app_ready (resolved ()); app_activate (resolved ());
                   app_second_instance] w)
        as (H1 & _ & H2 & H3)
  end.
  - reflexivity.
  - vm_compute. reflexivity.
  - split; [exact H1 | split; [exact H2 | exact H3]].
Defined.

(** C6 as the specification states it fails: with [hotReload] set, but to
    the empty string, a process without the lock exits without asking for
    a relaunch. *)
Lemma relaunch_with_empty_hotReload_counterexample :
  is_Some (Some "")
  /\ exitApp ∈ calls (log (boot false (Some "") false))
  /\ (app_relaunch ∉ calls (log (boot false (Some "") false))).
Proof.
  split; [now exists "" |]. split.
  - vm_compute. find_entry.
  - vm_compute. intros H.
    repeat (apply elem_of_cons in H as [H | H]; [discriminate |]).
    now apply elem_of_nil in H.
Qed.

(** C9 as the specification states it fails: the splash window is created
    with [resizable: true], not with a fixed size. *)
Lemma splash_window_is_resizable_counterexample :
  ~ (forall o : BrowserWindowOptions,
       o ∈ windows_created Splash (calls_of createSplashWindow empty_world) ->
       resizable o = Some false).
Proof.
  intros H. specialize (H splash_options).
  assert (Hin : splash_options
                ∈ windows_created Splash
                    (calls_of createSplashWindow empty_world)).
  { vm_compute. apply list_elem_of_here. }
  specialize (H Hin). discriminate H.
Qed.

(** A freshly created main window: on macOS the message takes it full
    screen, elsewhere it maximizes it. *)
Lemma app_maximize_witness :
  (calls_of (app_maximize true)
     (set_mainWindow (object (fresh_window (main_options false))) empty_world)
   = [win_setFullScreen Main true]
   /\ mainWindow
        (app_maximize true
           (set_mainWindow (object (fresh_window (main_options false)))
              empty_world))
      = object (set_fullScreen true (fresh_window (main_options false))))
  /\ (calls_of (app_maximize false)
        (set_mainWindow (object (fresh_window (main_options true)))
           empty_world)
      = [win_maximize Main]
      /\ mainWindow
           (app_maximize false
              (set_mainWindow (object (fresh_window (main_options true)))
                 empty_world))
         = object (set_maximized true (fresh_window (main_options true)))).
Proof.
  split.
  - destruct (app_maximize_is_a_guarded_toggle
                sample_hosts false true false true None sample_URL
                (fresh_window (main_options false))
                (set_mainWindow (object (fresh_window (main_options false)))
                   empty_world))
      as (_ & Hmac & _).
    + reflexivity.
    + destruct (Hmac eq_refl) as [Hflip _]. apply Hflip. reflexivity.
  - destruct (app_maximize_is_a_guarded_toggle
                sample_hosts true false false true None sample_URL
                (fresh_window (main_options true))
                (set_mainWindow (object (fresh_window (main_options true)))
                   empty_world))
      as (_ & _ & Hother).
    + reflexivity.
    + destruct (Hother eq_refl) as (_ & Hmax & _).
      apply Hmax; reflexivity.
Defined.

(** ** The further properties on concrete inputs *)

(** The dashboard of the application's own host, at index 0 of the sample
    list, stays in the application. *)
Lemma plain_allowed_host_stays_in_app_witness :
  handleLinks sample_hosts sample_URL "https://dogehouse.tv/dash" empty_world
  = empty_world
  /\ calls_of (handleLinks sample_hosts sample_URL "https://dogehouse.tv/dash")
       empty_world = [].
Proof.
  apply (plain_allowed_host_stays_in_app
           sample_hosts sample_URL "https://dogehouse.tv/dash"
           {| hostname := "dogehouse.tv"; pathname := "/dash" |}
           empty_world).
  - reflexivity.
  - refine (bool_decide_unpack _ _). vm_compute. exact I.
  - vm_compute. discriminate.
  - vm_compute. discriminate.
Defined.

(** With the code-hosting site at index 3 and again at index 8, even its
    login page is redirected. *)
Lemma host_at_both_indices_is_always_redirected_witness :
  handleLinks
    ["a.test"; "b.test"; "c.test"; "github.com"; "d.test"; "e.test";
     "f.test"; "g.test"; "github.com"]
    sample_URL "https://github.com/login" empty_world
  = redirected "https://github.com/login" empty_world
  /\ calls_of
       (handleLinks
          ["a.test"; "b.test"; "c.test"; "github.com"; "d.test"; "e.test";
           "f.test"; "g.test"; "github.com"]
          sample_URL "https://github.com/login") empty_world
     = [event_preventDefault; shell_openExternal "https://github.com/login"].
Proof.
  apply (host_at_both_indices_is_always_redirected
           ["a.test"; "b.test"; "c.test"; "github.com"; "d.test"; "e.test";
            "f.test"; "g.test"; "github.com"]
           sample_URL "https://github.com/login"
           {| hostname := "github.com"; pathname := "/login" |}
           empty_world).
  - reflexivity.
  - reflexivity.
  - reflexivity.
Defined.

(** A freshly created main window is minimizable: ['@app/minimize']
    minimizes it. *)
Lemma app_minimize_is_guarded_witness :
  calls_of app_minimize
    (set_mainWindow (object (fresh_window (main_options false))) empty_world)
  = [win_minimize Main]
  /\ mainWindow
       (app_minimize
          (set_mainWindow (object (fresh_window (main_options false)))
             empty_world))
     = object (set_minimized true (fresh_window (main_options false))).
Proof.
  destruct (app_minimize_is_guarded
              sample_hosts false true false true None sample_URL
              (fresh_window (main_options false))
              (set_mainWindow (object (fresh_window (main_options false)))
                 empty_world))
    as (_ & H & _).
  - reflexivity.
  - apply H. reflexivity.
Defined.

(** Closing a main window without an overlay: the shortcuts are released
    and the main window is destroyed. *)
Lemma closed_releases_shortcuts_then_windows_witness :
  listener_body sample_hosts false true false true None sample_URL
    on_closed main_closed = Some closed
  /\ calls_of closed
       (set_mainWindow (object (fresh_window (main_options false)))
          empty_world)
     = [globalShortcut_unregisterAll] ++ [] ++ [win_destroy Main].
Proof.
  apply (closed_releases_shortcuts_then_windows
           sample_hosts false true false true None sample_URL
           (fresh_window (main_options false))
           (set_mainWindow (object (fresh_window (main_options false)))
              empty_world)).
  reflexivity.
Defined.

(** On macOS the renderer's ['@dogehouse/loaded'] maximizes the window. *)
Lemma loaded_maximizes_on_mac_only_witness :
  exists c : Cmd,
    listener_body sample_hosts false true false true None sample_URL
      on_dogehouse_loaded ipc_dogehouse_loaded = Some c
    /\ calls_of c
         (set_mainWindow (object (fresh_window (main_options false)))
            empty_world)
       = [win_maximize Main].
Proof.
  destruct (loaded_maximizes_on_mac_only
              sample_hosts false true false true None sample_URL
              (fresh_window (main_options false))
              (set_mainWindow (object (fresh_window (main_options false)))
                 empty_world))
    as (c & Hc & H & _).
  - reflexivity.
  - exists c. split; [exact Hc |]. apply H. reflexivity.
Defined.

(** After the start-up, a navigation to a foreign host is redirected and
    leaves the windows, the listeners and the polling timer as they
    were. *)
Lemma ordinary_events_leave_the_state_alone_witness :
  exists w w' : World,
    run sample_hosts false true false true None sample_URL
      [app_ready (resolved ())] (boot false None true) = Some w
    /\ step sample_hosts false true false true None sample_URL
         (web_will_navigate "https://example.org/about") w = Some w'
    /\ splash w' = splash w
    /\ listeners w' = listeners w
    /\ timers w' = timers w.
Proof.
  eexists. eexists.
  split; [vm_compute; reflexivity |].
  split; [vm_compute; reflexivity |].
  match goal with
  | |- splash ?w' = splash ?w /\ _ =>
      destruct (ordinary_events_leave_the_state_alone
                  sample_hosts false true false true None sample_URL
                  (web_will_navigate "https://example.org/about") w w')
        as (_ & _ & H1 & _ & _ & H2 & H3)
  end.
  - reflexivity.
  - vm_compute. reflexivity.
  - split; [exact H1 |]. split; [exact H2 | exact H3].
Defined.

(** A hand-off followed by further ticks of the clock and a second
    ['ready-to-show']: still one ["launch"], one [destroy], one [show]. *)
Lemma handoff_happens_at_most_once_witness :
  exists w : World,
    run sample_hosts false true false true None sample_URL
      [app_ready (resolved ()); main_ready_to_show; clock_advance 1000;
       timer_fires 0; clock_advance 800; timer_fires 1;
       main_ready_to_show; clock_advance 1000]
      (boot false None true) = Some w
    /\ count_call launch (log w) <= 1
    /\ count_call (win_destroy Splash) (log w) <= 1
    /\ count_call (win_show Main) (log w) <= 1
    /\ (count_call launch (log w) = 1 ->
        count_timers poll_shouldShowWindow (timers w) = 0).
Proof.
  eexists. split; [vm_compute; reflexivity |].
  apply (handoff_happens_at_most_once
           sample_hosts false true false true None true sample_URL
           [app_ready (resolved ()); main_ready_to_show; clock_advance 1000;
            timer_fires 0; clock_advance 800; timer_fires 1;
            main_ready_to_show; clock_advance 1000]).
  vm_compute. reflexivity.
Defined.

(** The start-up and the hand-off never clear the time-out with id 0. *)
Lemma clearTimeout_is_never_called_witness :
  exists w : World,
    run sample_hosts false true false true None sample_URL
      [app_ready (resolved ()); main_ready_to_show; clock_advance 1000;
       timer_fires 0; clock_advance 800; timer_fires 1]
      (boot false None true) = Some w
    /\ skipUpdateTimeout w = None
    /\ clearTimeout 0 ∉ calls (log w).
Proof.
  eexists. split; [vm_compute; reflexivity |].
  apply (clearTimeout_is_never_called
           sample_hosts false true false true None true sample_URL
           [app_ready (resolved ()); main_ready_to_show; clock_advance 1000;
            timer_fires 0; clock_advance 800; timer_fires 1]).
  vm_compute. reflexivity.
Defined.

(** A development build on Linux: the start-up loads the local server and
    opens the developer tools, and does not load the production URL. *)
Lemma build_decides_url_and_devtools_witness :
  exists w : World,
    run sample_hosts true false false false None sample_URL
      [app_ready (resolved ())] (boot false None true) = Some w
    /\ loadURL "http://localhost:3000" ∈ calls (log w)
    /\ openDevTools ∈ calls (log w)
    /\ loadURL "https://dogehouse.tv/" ∉ calls (log w).
Proof.
  eexists. split; [vm_compute; reflexivity |].
  match goal with
  | |- _ ∈ calls (log ?w) /\ _ =>
      destruct (build_decides_url_and_devtools
                  sample_hosts true false false false None true sample_URL
                  [app_ready (resolved ())] w "https://dogehouse.tv/")
        as [Hurl _]
  end.
  - vm_compute. reflexivity.
  - split; [refine (bool_decide_unpack _ _); vm_compute; exact I |].
    split; [refine (bool_decide_unpack _ _); vm_compute; exact I |].
    intros Hin. specialize (Hurl Hin). discriminate Hurl.
Defined.

(** The main window of a start-up on Linux was created with the script's
    options. *)
Lemma every_window_has_the_scripts_options_witness :
  exists w : World,
    run sample_hosts true false false true None sample_URL
      [app_ready (resolved ())] (boot false None true) = Some w
    /\ new_BrowserWindow Main (main_options true) ∈ calls (log w)
    /\ width (main_options true) = 1500%Z
    /\ height (main_options true) = 800%Z
    /\ minWidth (main_options true) = Some 400%Z
    /\ minHeight (main_options true) = Some 600%Z
    /\ show (main_options true) = Some false.
Proof.
  eexists. split; [vm_compute; reflexivity |].
  match goal with
  | |- ?c ∈ calls (log ?w) /\ _ =>
      assert (Hin : c ∈ calls (log w))
        by (refine (bool_decide_unpack _ _); vm_compute; exact I);
      split; [exact Hin |];
      destruct (every_window_has_the_scripts_options
                  sample_hosts true false false true None true sample_URL
                  [app_ready (resolved ())] w Main (main_options true))
        as (_ & H)
  end.
  - vm_compute. reflexivity.
  - exact Hin.
  - exact H.
Defined.

(** After the main window was closed, ['activate'] only leaves its entry
    in the log. *)
Lemma activate_never_recreates_the_window_witness :
  exists w : World,
    run sample_hosts false true false true None sample_URL
      [app_ready (resolved ()); main_closed] (boot false None true)
    = Some w
    /\ is_null (mainWindow w) = false
    /\ activate false true true (resolved ()) w = w
    /\ step sample_hosts false true false true None sample_URL
         (app_activate (resolved ())) w
       = Some (record (emitted "activate") w).
Proof.
  eexists. split; [vm_compute; reflexivity |].
  apply (activate_never_recreates_the_window
           sample_hosts false true false true None true sample_URL
           [app_ready (resolved ()); main_closed] _ (resolved ())).
  vm_compute. reflexivity.
Defined.

(** After the start-up and the hand-off no listener is registered twice. *)
Lemma each_event_has_at_most_one_listener_witness :
  exists w : World,
    run sample_hosts false true false true None sample_URL
      [app_ready (resolved ()); main_ready_to_show; clock_advance 1000;
       timer_fires 0]
      (boot false None true) = Some w
    /\ NoDup (listeners w)
    /\ sublist (listeners w) (boot_listeners ++ window_listeners).
Proof.
  eexists. split; [vm_compute; reflexivity |].
  match goal with
  | |- NoDup (listeners ?w) /\ _ =>
      destruct (each_event_has_at_most_one_listener
                  sample_hosts false true false true None true sample_URL
                  [app_ready (resolved ()); main_ready_to_show;
                   clock_advance 1000; timer_fires 0]
                  w ipc_app_minimize)
        as (H1 & H2 & _)
  end.
  - vm_compute. reflexivity.
  - split; [exact H1 | exact H2].
Defined.

(** The main window reports ready after 300 ms; the polling callback runs
    at 1000 and the delayed callback at 1800. *)
Lemma handoff_completes_witness :
  exists w : World,
    run sample_hosts false true false true None sample_URL
      [app_ready (resolved ()); clock_advance 300; main_ready_to_show;
       clock_advance 700; timer_fires 0; clock_advance 800; timer_fires 1]
      (boot false None true) = Some w
    /\ log w
       = log (boot false None true)
         ++ [(0%N, emitted "ready")]
         ++ stamp 0 (ready_calls false true true fresh_world)
         ++ [((0 + 300)%N, emitted "ready-to-show")]
         ++ at_time (0 + 300 + 700)%N
              [called launch; called (clearInterval 0);
               called (setTimeout 1 800)]
         ++ at_time (0 + 300 + 700 + 800)%N
              [called (win_destroy Splash); called (win_show Main)]
    /\ timers w = [].
Proof.
  apply (handoff_completes
           sample_hosts false true false true None true sample_URL
           () 300%N 700%N 800%N).
  - reflexivity.
  - lia.
  - lia.
Defined.

(** [i18n.init] rejects: the process goes on without a window, and
    neither ['activate'] nor a second launch nor the passing of time
    creates one. *)
Lemma failed_localisation_leaves_no_window_witness :
  exists w : World,
    run sample_hosts false true false true None sample_URL
      [app_ready rejected; app_activate (resolved ()); app_second_instance;
       clock_advance 5000]
      (boot false None true) = Some w
    /\ mainWindow w = undefined
    /\ splash w = undefined
    /\ timers w = []
    /\ listeners w = boot_listeners
    /\ forall k, windows_created k (calls (log w)) = [].
Proof.
  eexists. split; [vm_compute; reflexivity |].
  apply (failed_localisation_leaves_no_window
           sample_hosts false true false true None true sample_URL
           [app_ready rejected; app_activate (resolved ());
            app_second_instance; clock_advance 5000]).
  - reflexivity.
  - repeat constructor.
  - vm_compute. reflexivity.
Defined.

(** The operating system minimizes the main window after the start-up; a
    second launch restores it and focuses it. *)
Lemma second_launch_brings_the_window_forward_witness :
  exists w w' : World,
    run sample_hosts false true false true None sample_URL
      [app_ready (resolved ()); os_main_window true false false]
      (boot false None true) = Some w
    /\ step sample_hosts false true false true None sample_URL
         app_second_instance w = Some w'
    /\ log w'
       = log w ++ [(now w, emitted "second-instance")]
         ++ at_time (now w)
              [called (win_restore Main); called (win_focus Main)].
Proof.
  eexists.
  match goal with
  | |- exists w', run ?h ?a ?b ?c ?d ?e ?f ?evs ?bt = Some ?w /\ _ =>
      assert (Hr : run h a b c d e f evs bt = Some w)
        by (vm_compute; reflexivity);
      destruct (second_launch_brings_the_window_forward
                  h a b c d e true f evs w eq_refl Hr)
        as (w' & Hs & Hlog & _);
      exists w'; split; [exact Hr |]; split; [exact Hs |]; exact Hlog
  end.
Defined.


(** ** The main window on the screen before the hand-off *)



(** ** A permission request that fails *)

(** C7 as the specification states it fails: when the host's
    [askForMediaAccess] rejects, the ['request-mic'] message is asked
    about once and gets no reply at all, neither [true] nor [false]. *)
Lemma request_mic_rejected_gets_no_reply_counterexample :
  exists w : World,
    run sample_hosts false true false true None sample_URL
      [app_ready (resolved ()); ipc_request_mic rejected]
      (boot false None true) = Some w
    /\ count_call (askForMediaAccess "microphone") (log w) = 1
    /\ (event_returnValue true ∉ calls (log w))
    /\ (event_returnValue false ∉ calls (log w))
    /\ calls_of (request_mic rejected) w = [askForMediaAccess "microphone"].
Proof.
  eexists. split; [vm_compute; reflexivity |].
  split; [vm_compute; reflexivity |].
  split; [refine (bool_decide_unpack _ _); vm_compute; exact I |].
  split; [refine (bool_decide_unpack _ _); vm_compute; exact I |].
  vm_compute. reflexivity.
Qed.
